(** * RingCentral Engage Voice client: a shallow embedding of
    [src/engage-voice.js] and the properties of its token store,
    authentication engine, header injection, error classifier and
    URL resolver.

    The client is a JavaScript class layered over three collaborators that
    are not part of the repository: the HTTP transport (axios), the identity
    platform SDK and the URL library (urijs).  The transport and the SDK are
    taken as oracles (Section variables); the parts of urijs that the client
    calls are modelled in [Module URI]. *)

From Stdlib Require Import String Ascii ZArith List Bool Lia.
From stdpp Require Import base option list gmap strings pretty.

Local Open Scope string_scope.
Local Open Scope list_scope.

(** ** JavaScript values *)

Definition loc := nat.

(** The values that flow through the client: JSON-like data plus
    [undefined].  Objects carry an identity [loc], because [!==] on objects
    compares references, and their own properties as a finite map.  Numbers
    are the integer-valued ones ([JNum]) and [NaN]; fractional numbers and
    arrays are never inspected by the client and are left out. *)
#[warnings="-register-all"]
Inductive jsval : Type :=
| JUndefined
| JNull
| JBool (b : bool)
| JNum (n : Z)
| JNaN
| JStr (s : string)
| JObj (l : loc) (fields : gmap string jsval).

(** [!v] is [negb (truthy v)]. *)
Definition truthy (v : jsval) : bool :=
  match v with
  | JUndefined | JNull | JNaN => false
  | JBool b => b
  | JNum n => negb (n =? 0)%Z
  | JStr s => negb (String.eqb s "")
  | JObj _ _ => true
  end.

Definition nullish (v : jsval) : bool :=
  match v with
  | JUndefined | JNull => true
  | _ => false
  end.

(** [a === b]. *)
Definition strict_eq (a b : jsval) : bool :=
  match a, b with
  | JUndefined, JUndefined => true
  | JNull, JNull => true
  | JBool x, JBool y => Bool.eqb x y
  | JNum x, JNum y => (x =? y)%Z
  | JStr x, JStr y => String.eqb x y
  | JObj x _, JObj y _ => Nat.eqb x y
  | _, _ => false
  end.

(** [a !== b]. *)
Definition strict_neq (a b : jsval) : bool := negb (strict_eq a b).

(** [String(v)], as performed by template literals and by [+] with a string
    operand (plain objects print as [[object Object]]). *)
Definition to_string (v : jsval) : string :=
  match v with
  | JUndefined => "undefined"
  | JNull => "null"
  | JBool true => "true"
  | JBool false => "false"
  | JNum n => pretty n
  | JNaN => "NaN"
  | JStr s => s
  | JObj _ _ => "[object Object]"
  end.

(** [v.k] for a [v] that is neither [undefined] nor [null].  The client only
    reads the names response, status, statusText, data, config, authToken,
    apiToken, accessToken, access_token, refreshToken, username and
    password, none of which a primitive has. *)
Definition prop (v : jsval) (k : string) : jsval :=
  match v with
  | JObj _ fields => default JUndefined (fields !! k)
  | _ => JUndefined
  end.

(** [a || b]. *)
Definition js_or (a b : jsval) : jsval := if truthy a then a else b.

(** The own enumerable properties copied by an object spread [{...v}]:
    those of an object, the indexed characters of a string, nothing for the
    other primitives. *)
Fixpoint string_entries (i : nat) (s : string) : gmap string jsval :=
  match s with
  | EmptyString => ∅
  | String c r => <[pretty i := JStr (String c EmptyString)]> (string_entries (S i) r)
  end.

Definition spread (v : jsval) : gmap string jsval :=
  match v with
  | JObj _ fields => fields
  | JStr s => string_entries 0 s
  | _ => ∅
  end.

(** ** String helpers (String.prototype) *)

Module Str.

(** [s.startsWith(p)]. *)
Fixpoint startsWith (s p : string) {struct p} : bool :=
  match p, s with
  | EmptyString, _ => true
  | String a p', String b s' => Ascii.eqb a b && startsWith s' p'
  | String _ _, EmptyString => false
  end.

Definition is_empty (s : string) : bool :=
  match s with EmptyString => true | _ => false end.

(** [s.split(c)] for a one-character separator. *)
Fixpoint split (c : ascii) (s : string) : list string :=
  match s with
  | EmptyString => [EmptyString]
  | String a r =>
      if Ascii.eqb a c then EmptyString :: split c r
      else match split c r with
           | h :: t => String a h :: t
           | [] => [String a EmptyString]
           end
  end.

(** [l.join(sep)]. *)
Fixpoint join (sep : string) (l : list string) : string :=
  match l with
  | [] => EmptyString
  | x :: r =>
      match r with
      | [] => x
      | _ :: _ => x +:+ sep +:+ join sep r
      end
  end.

(** Cut [s] at the first occurrence of [c]: the text before it and, when
    [c] occurs, the text after it ([indexOf] followed by [substring]). *)
Fixpoint break (c : ascii) (s : string) : string * option string :=
  match s with
  | EmptyString => (EmptyString, None)
  | String a r =>
      if Ascii.eqb a c then (EmptyString, Some r)
      else let '(b, t) := break c r in (String a b, t)
  end.

(** Cut at the last occurrence of [c]. *)
Fixpoint rbreak (c : ascii) (s : string) : option (string * string) :=
  match s with
  | EmptyString => None
  | String a r =>
      match rbreak c r with
      | Some (b, t) => Some (String a b, t)
      | None => if Ascii.eqb a c then Some (EmptyString, r) else None
      end
  end.

Fixpoint drop_while (f : ascii -> bool) (s : string) : string :=
  match s with
  | EmptyString => EmptyString
  | String a r => if f a then drop_while f r else s
  end.

(** Remove the trailing characters that satisfy [f]. *)
Fixpoint rstrip (f : ascii -> bool) (s : string) : string :=
  match s with
  | EmptyString => EmptyString
  | String a r =>
      let r' := rstrip f r in
      if is_empty r' && f a then EmptyString else String a r'
  end.

Fixpoint filter (f : ascii -> bool) (s : string) : string :=
  match s with
  | EmptyString => EmptyString
  | String a r => if f a then String a (filter f r) else filter f r
  end.

Fixpoint map (f : ascii -> ascii) (s : string) : string :=
  match s with
  | EmptyString => EmptyString
  | String a r => String (f a) (map f r)
  end.

Fixpoint forallb (f : ascii -> bool) (s : string) : bool :=
  match s with
  | EmptyString => true
  | String a r => f a && forallb f r
  end.

Fixpoint drop (n : nat) (s : string) : string :=
  match n, s with
  | S n', String _ r => drop n' r
  | _, _ => s
  end.

Fixpoint take (n : nat) (s : string) : string :=
  match n, s with
  | S n', String a r => String a (take n' r)
  | _, _ => EmptyString
  end.

Definition endsWith (s p : string) : bool :=
  (String.length p <=? String.length s)%nat
  && String.eqb (drop (String.length s - String.length p) s) p.

Definition in_range (lo hi : nat) (c : ascii) : bool :=
  let n := nat_of_ascii c in (lo <=? n)%nat && (n <=? hi)%nat.

Definition is_digit (c : ascii) : bool := in_range 48 57 c.
Definition is_upper (c : ascii) : bool := in_range 65 90 c.
Definition is_lower (c : ascii) : bool := in_range 97 122 c.
Definition is_alpha (c : ascii) : bool := is_upper c || is_lower c.
Definition is_alnum (c : ascii) : bool := is_alpha c || is_digit c.

Definition lower (c : ascii) : ascii :=
  if is_upper c then ascii_of_nat (nat_of_ascii c + 32) else c.

Definition upper (c : ascii) : ascii :=
  if is_lower c then ascii_of_nat (nat_of_ascii c - 32) else c.

(** Membership of a character in a set written as a string. *)
Fixpoint mem (c : ascii) (set : string) : bool :=
  match set with
  | EmptyString => false
  | String a r => Ascii.eqb c a || mem c r
  end.

End Str.

(** ** The URL library

    A model of the parts of urijs (1.19) that the client calls: [URI(s)],
    [hostname()], [path()], [segment()], [URI.joinPaths], [normalize()] and
    [toString()].  Strings are sequences of bytes, a non-ASCII character
    being its UTF-8 bytes, and the functions follow the library's parsing
    and building steps.

    The model has a domain.  It does not cover non-ASCII white space,
    percent escapes in the user information, IPv6 hosts (bracketed or
    bare) and internationalised host names, and it returns a value where
    the library throws (a malformed percent escape in a path, an invalid
    port).  The properties of the resolver below are stated for URLs
    inside the domain. *)

Module URI.

Record parts : Type := mkParts {
  protocol : option string;
  username : option string;
  password : option string;
  hostname : option string;
  port : option string;
  urn : bool;
  path : string;
  query : option string;
  fragment : option string
}.

(** [URI('')]: no component is set. *)
Definition empty_parts : parts :=
  mkParts None None None None None false "" None None.

Definition set_path (p : parts) (v : string) : parts :=
  mkParts (protocol p) (username p) (password p) (hostname p) (port p)
          (urn p) v (query p) (fragment p).

(** [x || null] on a string. *)
Definition non_empty (s : string) : option string :=
  if Str.is_empty s then None else Some s.

Definition or_empty (o : option string) : string := default "" o.

Definition is_slash (c : ascii) : bool :=
  Ascii.eqb c "/" || Ascii.eqb c "\".

Definition is_colon (c : ascii) : bool := Ascii.eqb c ":".

(** [leading_whitespace_expression]: the control characters and the
    space. *)
Definition is_leading_ws (c : ascii) : bool := Str.in_range 0 32 c.

(** [ascii_tab_whitespace]: tab, line feed, carriage return. *)
Definition is_tab_newline (c : ascii) : bool :=
  let n := nat_of_ascii c in
  Nat.eqb n 9 || Nat.eqb n 10 || Nat.eqb n 13.

(** *** Percent encoding *)

Definition hex_digit (n : nat) : ascii :=
  if (n <? 10)%nat then ascii_of_nat (48 + n) else ascii_of_nat (55 + n).

Definition hex_value (c : ascii) : option nat :=
  let n := nat_of_ascii c in
  if Str.is_digit c then Some (n - 48)
  else if Str.in_range 65 70 c then Some (n - 55)
  else if Str.in_range 97 102 c then Some (n - 87)
  else None.

Definition pct (c : ascii) : string :=
  let n := nat_of_ascii c in
  String "%" (String (hex_digit (n / 16)) (String (hex_digit (n mod 16)) "")).

(** The characters [URI.encode] (strict [encodeURIComponent]) keeps. *)
Definition unreserved (c : ascii) : bool :=
  Str.is_alnum c || Str.mem c "-_.~".

(** [URI.encodePathSegment] additionally restores [$&+,;=:@]. *)
Definition path_safe (c : ascii) : bool :=
  unreserved c || Str.mem c "$&+,;=:@".

(** [URI.encodeUrnPathSegment] restores [!$'()*+,;=@]. *)
Definition urn_safe (c : ascii) : bool :=
  unreserved c || Str.mem c "!$'()*+,;=@".

Definition encode_char (safe : ascii -> bool) (c : ascii) : string :=
  if safe c then String c "" else pct c.

(** [encode(decode(s))] on one segment, fused: an escape of an ASCII
    character is decoded and the character re-encoded, an escape of a
    byte of a multi-byte character is kept with upper-case digits.  (A
    [%] that starts no escape makes the library raise URIError; here it
    is re-encoded.) *)
Fixpoint recode (safe : ascii -> bool) (s : string) : string :=
  match s with
  | EmptyString => EmptyString
  | String c r =>
      let plain := encode_char safe c +:+ recode safe r in
      if Ascii.eqb c "%" then
        match r with
        | String h1 (String h2 r') =>
            match hex_value h1, hex_value h2 with
            | Some a, Some b =>
                (if (a <? 8)%nat
                 then encode_char safe (ascii_of_nat (16 * a + b))
                 else String "%" (String (Str.upper h1) (String (Str.upper h2) "")))
                +:+ recode safe r'
            | _, _ => plain
            end
        | _ => plain
        end
      else plain
  end.

(** [URI.encode]. *)
Fixpoint encode (s : string) : string :=
  match s with
  | EmptyString => EmptyString
  | String c r => encode_char unreserved c +:+ encode r
  end.

(** [URI.recodePath] and [URI.recodeUrnPath]. *)
Definition recodePath (s : string) : string :=
  Str.join "/" (map (recode path_safe) (Str.split "/" s)).

Definition recodeUrnPath (s : string) : string :=
  Str.join ":" (map (recode urn_safe) (Str.split ":" s)).

(** *** Parsing *)

Definition web_schemes : list string := ["https"; "http"; "ftp"; "wss"; "ws"].

(** Match [p] case-insensitively at the start of [s]: the matched text and
    the rest. *)
Fixpoint strip_prefix_ci (p s : string) : option (string * string) :=
  match p, s with
  | EmptyString, _ => Some (EmptyString, s)
  | String a p', String b s' =>
      if Ascii.eqb (Str.lower a) (Str.lower b) then
        match strip_prefix_ci p' s' with
        | Some (m, r) => Some (String b m, r)
        | None => None
        end
      else None
  | String _ _, EmptyString => None
  end.

(** Match [:+[/\\]*] at the start of [s]: the rest. *)
Definition colon_slashes (s : string) : option string :=
  match s with
  | String c r =>
      if is_colon c then Some (Str.drop_while is_slash (Str.drop_while is_colon r))
      else None
  | EmptyString => None
  end.

Definition scheme_match (s p : string) : option string :=
  match strip_prefix_ci p s with
  | Some (m, r) =>
      match colon_slashes r with
      | Some r' => Some (m +:+ "://" +:+ r')
      | None => None
      end
  | None => None
  end.

Fixpoint first_match (s : string) (ps : list string) : option string :=
  match ps with
  | [] => None
  | p :: ps' =>
      match scheme_match s p with
      | Some r => Some r
      | None => first_match s ps'
      end
  end.

(** [string.replace(/^(https?|ftp|wss?)?:+[/\\]*/i, '$1://')]. *)
Definition fix_web_scheme (s : string) : string :=
  match first_match s web_schemes with
  | Some s' => s'
  | None =>
      match colon_slashes s with
      | Some r => "://" +:+ r
      | None => s
      end
  end.

Definition two_slashes (s : string) : bool :=
  match s with
  | String a (String b _) => is_slash a && is_slash b
  | _ => false
  end.

(** [string.replace(/^[/\\]{2,}/i, '//')]. *)
Definition fix_leading_slashes (s : string) : string :=
  if two_slashes s then "//" +:+ Str.drop_while is_slash s else s.

(** [URI.protocol_expression]: [/^[a-z][a-z0-9.+-]*$/i]. *)
Definition protocol_char (c : ascii) : bool :=
  Str.is_alnum c || Str.mem c ".+-".

Definition protocol_ok (s : string) : bool :=
  match s with
  | EmptyString => false
  | String c r => Str.is_alpha c && Str.forallb protocol_char r
  end.

(** [string.replace(/\\/g, '/')]. *)
Definition backslash_to_slash (s : string) : string :=
  Str.map (fun c => if Ascii.eqb c "\" then "/"%char else c) s.

(** [URI.parseUserinfo]: the text up to the last [@] that stands before
    the first slash or backslash is [username[:password]]. *)
Definition parseUserinfo (s : string) (p : parts) : string * parts :=
  let '(auth, _) := Str.break "/" (backslash_to_slash s) in
  match Str.rbreak "@" auth with
  | Some (info, _) =>
      let t := Str.split ":" info in
      let user := non_empty (hd "" t) in
      let pass := match tl t with
                  | [] => None
                  | x :: _ => if Str.is_empty x then None
                              else Some (Str.join ":" (tl t))
                  end in
      (Str.drop (S (String.length info)) s,
       mkParts (protocol p) user pass (hostname p) (port p) (urn p)
               (path p) (query p) (fragment p))
  | None =>
      (s, mkParts (protocol p) None None (hostname p) (port p) (urn p)
                  (path p) (query p) (fragment p))
  end.

(** [URI.parseHost]: host and port up to the first slash; what follows is
    the path, [/] when nothing follows. *)
Definition parseHost (s : string) (p : parts) : parts :=
  let s := backslash_to_slash s in
  let '(auth, rest) := Str.break "/" s in
  let '(h, pt) := match Str.split ":" auth with
                  | [h] => (non_empty h, None)
                  | [h; pt] => (non_empty h, non_empty pt)
                  | _ => (non_empty auth, None)
                  end in
  let pa := match rest with
            | Some r => String "/" r
            | None => "/"
            end in
  mkParts (protocol p) (username p) (password p) h pt (urn p)
          pa (query p) (fragment p).

Definition parseAuthority (s : string) (p : parts) : parts :=
  let '(s', p') := parseUserinfo s p in parseHost s' p'.

(** [URI.parse]. *)
Definition parse (input : string) : parts :=
  let s := Str.filter (fun c => negb (is_tab_newline c))
                      (Str.drop_while is_leading_ws input) in
  let '(s, frag) := Str.break "#" s in
  let '(s, qry) := Str.break "?" s in
  let s := fix_leading_slashes (fix_web_scheme s) in
  let base := mkParts None None None None None false ""
                      (non_empty (or_empty qry)) (non_empty (or_empty frag)) in
  let with_protocol (o : option string) (u : bool) (pa : string) :=
    mkParts o None None None None u pa (query base) (fragment base) in
  if Str.startsWith s "//" then parseAuthority (Str.drop 2 s) base
  else
    match Str.break ":" s with
    | (_, None) => set_path base s
    | (proto, Some rest) =>
        if negb (Str.is_empty proto) && negb (protocol_ok proto)
        then set_path base s
        else if two_slashes rest
        then parseAuthority (Str.drop 2 rest) (with_protocol (non_empty proto) false "")
        else with_protocol (non_empty proto) true rest
    end.

(** *** Building *)

Definition buildUserinfo (p : parts) : string :=
  let t := match username p with Some u => encode u | None => "" end
           +:+ match password p with Some w => ":" +:+ encode w | None => "" end in
  if Str.is_empty t then "" else t +:+ "@".

Definition buildHost (p : parts) : string :=
  match hostname p with
  | None => ""
  | Some h => h +:+ match port p with Some n => ":" +:+ n | None => "" end
  end.

Definition buildAuthority (p : parts) : string :=
  buildUserinfo p +:+ buildHost p.

(** [URI.build], which [toString()] returns. *)
Definition build (p : parts) : string :=
  let t := match protocol p with Some s => s +:+ ":" | None => "" end in
  let slashes := negb (urn p) && (negb (Str.is_empty t) || bool_decide (is_Some (hostname p))) in
  let t := if slashes then t +:+ "//" else t in
  let t := t +:+ buildAuthority p in
  let t := if negb (Str.startsWith (path p) "/") && slashes then t +:+ "/" else t in
  let t := t +:+ path p in
  let t := match query p with Some q => t +:+ "?" +:+ q | None => t end in
  match fragment p with Some f => t +:+ "#" +:+ f | None => t end.

Definition toString (p : parts) : string := build p.

(** *** Accessors *)

(** [uri.hostname()]. *)
Definition get_hostname (p : parts) : string :=
  if urn p then "" else or_empty (hostname p).

(** [uri.path()]. *)
Definition get_path (p : parts) : string :=
  if Str.is_empty (path p)
  then (if bool_decide (is_Some (hostname p)) then "/" else "")
  else path p.

(** [uri.path(v)] for a URI object [v], which is converted with
    [toString()]; an object is truthy whatever it prints as. *)
Definition path_set_uri (p : parts) (v : parts) : parts :=
  set_path p (if urn p then recodeUrnPath (toString v) else recodePath (toString v)).

(** [uri.path(v)] for a string [v]. *)
Definition path_set (p : parts) (v : string) : parts :=
  set_path p
    (if urn p then (if Str.is_empty v then "" else recodeUrnPath v)
     else (if Str.is_empty v then "/" else recodePath v)).

Definition separator (p : parts) : ascii := if urn p then ":"%char else "/"%char.

(** [uri.segment()]. *)
Definition segment (p : parts) : list string :=
  let pa := get_path p in
  let segs := Str.split (separator p) pa in
  if Str.startsWith pa "/" then tl segs else segs.

(** [trimSlashes]. *)
Definition trimSlashes (s : string) : string :=
  let is_sl c := Ascii.eqb c "/" in
  Str.rstrip is_sl (Str.drop_while is_sl s).

(** The loop of [uri.segment(array)]: empty elements are collapsed.  The
    accumulator holds the segments pushed so far, last one first. *)
Fixpoint collapse (v : list string) (racc : list string) : list string :=
  match v with
  | [] => rev racc
  | x :: r =>
      let last_empty := match racc with
                        | [] => true
                        | h :: _ => Str.is_empty h
                        end in
      if Str.is_empty x && last_empty then collapse r racc
      else
        let racc' := match racc with
                     | h :: t => if Str.is_empty h then t else racc
                     | [] => []
                     end in
        collapse r (trimSlashes x :: racc')
  end.

(** [uri.segment(v)] for an array [v]. *)
Definition segment_set (p : parts) (v : list string) : parts :=
  let segs := collapse v [] in
  let segs := if Str.startsWith (get_path p) "/" then "" :: segs else segs in
  path_set p (Str.join (String (separator p) "") segs).

(** [uri.is('relative')]. *)
Definition is_relative (p : parts) : bool :=
  negb (urn p) && negb (bool_decide (is_Some (hostname p))).

(** *** Path normalisation *)

Inductive scan : Type := Plain | AfterSlash | AfterGroup.

(** [_path.replace(/(\/(\.\/)+)|(\/\.$)/g, '/')]: a slash followed by one
    or more [./], or a final [/.], becomes a slash. *)
Fixpoint resolve_simples (st : scan) (s : string) : string :=
  match s with
  | EmptyString => EmptyString
  | String c r =>
      let normal :=
        if Ascii.eqb c "/" then String c (resolve_simples AfterSlash r)
        else String c (resolve_simples Plain r) in
      match st with
      | Plain => normal
      | AfterSlash | AfterGroup =>
          if Ascii.eqb c "." then
            match r with
            | String d r' =>
                if Ascii.eqb d "/" then resolve_simples AfterGroup r'
                else normal
            | EmptyString =>
                match st with
                | AfterSlash => EmptyString
                | _ => normal
                end
            end
          else normal
      end
  end.

(** [_path.replace(/\/{2,}/g, '/')]. *)
Fixpoint squeeze (prev_slash : bool) (s : string) : string :=
  match s with
  | EmptyString => EmptyString
  | String c r =>
      if Ascii.eqb c "/"
      then (if prev_slash then squeeze true r else String c (squeeze true r))
      else String c (squeeze false r)
  end.

(** The text matched by [/^(\.\.\/)+/]. *)
Fixpoint leading_parents (s : string) : string :=
  match s with
  | String "." (String "." (String "/" r)) => "../" +:+ leading_parents r
  | _ => EmptyString
  end.

(** [_path.search(/\/\.\.(\/|$)/)]. *)
Fixpoint find_parent (s : string) : option nat :=
  match s with
  | EmptyString => None
  | String c r =>
      if Str.startsWith s "/.."
         && (Str.is_empty (Str.drop 3 s) || Str.startsWith (Str.drop 3 s) "/")
      then Some 0
      else option_map S (find_parent r)
  end.

(** [s.lastIndexOf('/')]. *)
Definition last_slash (s : string) : option nat :=
  match Str.rbreak "/" s with
  | Some (b, _) => Some (String.length b)
  | None => None
  end.

(** The loop that removes [..] segments together with their parent; every
    round shortens the path, so its length bounds the number of rounds. *)
Fixpoint resolve_parents (fuel : nat) (s : string) : string :=
  match fuel with
  | O => s
  | S fuel' =>
      match find_parent s with
      | None => s
      | Some O => resolve_parents fuel' (Str.drop 3 s)
      | Some i =>
          let pos := default i (last_slash (Str.take i s)) in
          resolve_parents fuel' (Str.take pos s +:+ Str.drop (i + 3) s)
      end
  end.

(** [uri.normalizePath()]. *)
Definition normalizePath (p : parts) : parts :=
  let pa := path p in
  if Str.is_empty pa then p
  else if urn p then set_path p (recodeUrnPath pa)
  else if String.eqb pa "/" then p
  else
    let pa := recodePath pa in
    let was_relative := negb (Str.startsWith pa "/") in
    let pa := if was_relative then "/" +:+ pa else pa in
    let pa := if Str.endsWith pa "/.." || Str.endsWith pa "/." then pa +:+ "/" else pa in
    let pa := squeeze false (resolve_simples Plain pa) in
    let parents := if was_relative then leading_parents (Str.drop 1 pa) else "" in
    let pa := resolve_parents (String.length pa) pa in
    let pa := if was_relative && is_relative p then parents +:+ Str.drop 1 pa else pa in
    set_path p pa.

(** [URI.joinPaths(...)].  The URI it builds and normalises has a path
    only, so of [normalize()] just [normalizePath] has an effect. *)
Definition joinPaths (input : list parts) : parts :=
  let segments := flat_map segment input in
  let nonEmptySegments := length (List.filter (fun s => negb (Str.is_empty s)) segments) in
  if Nat.eqb (length segments) 0 || Nat.eqb nonEmptySegments 0 then parse ""
  else
    let uri := segment_set (parse "") segments in
    let first := match input with
                 | i :: _ => get_path i
                 | [] => ""
                 end in
    let uri := if Str.is_empty first || Str.startsWith first "/"
               then path_set uri ("/" +:+ get_path uri) else uri in
    normalizePath uri.

End URI.

(** ** Collaborators and errors *)

(** [class HTTPError extends Error].  The four fields the constructor
    assigns; the [message] it formats from them with [JSON.stringify] is
    not represented. *)
Module HTTPError.
Record t : Type := mk {
  status : jsval;
  statusText : jsval;
  data : jsval;
  config : jsval
}.
End HTTPError.

(** The transport (axios): request configurations and settled promises.
    The configurations covered are those whose [url] is a string. *)
Module Axios.
Record config : Type := mk {
  method : option string;
  url : string;
  data : jsval;
  headers : option (gmap string jsval);
  (** the other options of a caller's config, passed through by
      [{...config}] *)
  other : gmap string jsval
}.

(** [{}]. *)
Definition empty : config := mk None "" JUndefined None ∅.

Inductive settled : Type :=
| Fulfilled (res : jsval)
| Rejected (e : jsval).
End Axios.

(** What a call can throw (or reject with). *)
Inductive thrown : Type :=
| ThrowValue (e : jsval)
| ThrowHTTPError (e : HTTPError.t)
| ThrowTypeError (reading : string).

Inductive result (A : Type) : Type :=
| Return (a : A)
| Throw (e : thrown).
Arguments Return {A} a.
Arguments Throw {A} e.

(** ** The client's state *)

(** The mutable part of a client together with what an observer sees of
    it: the events emitted so far and the requests handed to the transport
    so far, oldest first; the session data of the identity-platform SDK;
    and the next free object identity. *)
Record state : Type := mkState {
  _token : jsval;
  emitted : list (string * jsval);
  sent : list Axios.config;
  session : jsval;
  next_loc : loc
}.

(** The fields the constructor assigns once. *)
Record client : Type := mkClient {
  clientId : jsval;
  clientSecret : jsval;
  server : string;
  rcServer : string;
  apiPrefix : string;
  isLegacy : bool
}.

Record options : Type := mkOptions {
  opt_clientId : jsval;
  opt_clientSecret : jsval;
  opt_server : option string;
  opt_rcServer : option string;
  opt_apiPrefix : option string
}.

Definition SERVER : string := "https://engage.ringcentral.com".
Definition LEGACY_SERVERS : list string :=
  ["https://portal.vacd.biz"; "https://portal.virtualacd.biz"].
Definition RINGCENTRAL_SERVER : string := "https://platform.ringcentral.com".

(** [LEGACY_SERVERS.includes(server)]. *)
Definition isLegacyServer (server : string) : bool :=
  existsb (String.eqb server) LEGACY_SERVERS.

Definition constructor (o : options) : client :=
  let server := default SERVER (opt_server o) in
  mkClient (opt_clientId o) (opt_clientSecret o) server
           (default RINGCENTRAL_SERVER (opt_rcServer o))
           (default "voice" (opt_apiPrefix o))
           (isLegacyServer server).

(** A client right after construction: nothing stored, emitted or sent. *)
Definition initial (sdk_session : jsval) : state :=
  mkState JUndefined [] [] sdk_session 0.

(** ** A state-and-exception monad for the methods *)

Definition M (A : Type) : Type := state -> result A * state.

#[global] Instance M_ret : MRet M := fun A a st => (Return a, st).
#[global] Instance M_bind : MBind M := fun A B f m st =>
  match m st with
  | (Return a, st') => f a st'
  | (Throw e, st') => (Throw e, st')
  end.

Definition throw {A : Type} (e : thrown) : M A := fun st => (Throw e, st).
Definition get_state : M state := fun st => (Return st, st).

(** [v.k], which throws a TypeError on [undefined] and [null]. *)
Definition get_prop (v : jsval) (k : string) : M jsval :=
  if nullish v then throw (ThrowTypeError k) else mret (prop v k).

(** Evaluation of an object literal: a fresh identity. *)
Definition new_object (fields : gmap string jsval) : M jsval := fun st =>
  (Return (JObj (next_loc st) fields),
   mkState (_token st) (emitted st) (sent st) (session st) (S (next_loc st))).

(** [this.emit(name, arg)].  The listeners are outside the client;
    [emitted] records, in order, what they are notified of. *)
Definition emit (name : string) (arg : jsval) : M unit := fun st =>
  (Return tt,
   mkState (_token st) (emitted st ++ [(name, arg)]) (sent st) (session st) (next_loc st)).

Definition set_token (v : jsval) : M unit := fun st =>
  (Return tt, mkState v (emitted st) (sent st) (session st) (next_loc st)).

Definition set_session (v : jsval) : M unit := fun st =>
  (Return tt, mkState (_token st) (emitted st) (sent st) v (next_loc st)).

Definition log_request (c : Axios.config) : M unit := fun st =>
  (Return tt, mkState (_token st) (emitted st) (sent st ++ [c]) (session st) (next_loc st)).

Definition LF : ascii := ascii_of_nat 10.

(** ** The methods of [RingCentralEngageVoice] *)

Section Client.

(** The transport answers a request given the requests made before it. *)
Variable transport : list Axios.config -> Axios.config -> Axios.settled.
(** [rc.login(...args)]: from the SDK's session data and the arguments,
    the new session data or the rejection. *)
Variable rc_login : jsval -> list jsval -> jsval + jsval.
(** [process.env.version]. *)
Variable version : jsval.

Variable this : client.

(** The [catch] clause of the wrapper installed by the constructor. *)
Definition classify {A : Type} (e : jsval) : M A :=
  response ← get_prop e "response";
  if truthy response
  then throw (ThrowHTTPError
                (HTTPError.mk (prop response "status") (prop response "statusText")
                              (prop response "data") (prop response "config")))
  else throw (ThrowValue e).

(** [this._axios.request(config)]. *)
Definition axios_request (config : Axios.config) : M jsval :=
  st ← get_state;
  log_request config;;
  match transport (sent st) config with
  | Axios.Fulfilled res => mret res
  | Axios.Rejected e => classify e
  end.

Definition parseUrl (uri : string) (path : URI.parts) : URI.parts :=
  let u := URI.parse uri in
  let pathJoined := URI.joinPaths [u; path] in
  URI.path_set_uri u pathJoined.

Definition token (args : list jsval) : M jsval :=
  match args with
  | [] => st ← get_state; mret (_token st)
  | _token' :: _ =>
      st ← get_state;
      let tokenChanged := strict_neq (_token st) _token' in
      set_token _token';;
      (if tokenChanged then emit "tokenChanged" _token' else mret tt);;
      mret JUndefined
  end.

Definition getToken (refreshToken : jsval) : M jsval :=
  let url := server this +:+ "/api/auth/login/rc/accesstoken?includeRefresh=true" in
  token_ ← (if negb (truthy refreshToken) then
              st ← get_state;
              data ← (if truthy (session st) then mret (session st) else new_object ∅);
              access_token ← get_prop data "access_token";
              mret (js_or access_token (JStr ""))
            else mret refreshToken);
  let body := if truthy refreshToken
              then "refreshToken=" +:+ to_string token_ +:+ "&rcTokenType=Bearer"
              else "rcAccessToken=" +:+ to_string token_ +:+ "&rcTokenType=Bearer" in
  res ← axios_request
          (Axios.mk (Some "post") url (JStr body)
             (Some {["Content-Type" := JStr "application/x-www-form-urlencoded"]}) ∅);
  r ← get_prop res "data";
  token [r];;
  mret JUndefined.

Definition refresh : M jsval :=
  st ← get_state;
  refreshToken ← get_prop (_token st) "refreshToken";
  getToken refreshToken.

Definition _bearerAuthorizationHeader (st : state) : gmap string jsval :=
  let accessToken := if truthy (_token st) then prop (_token st) "accessToken"
                     else JStr "" in
  {["Authorization" := JStr ("Bearer " +:+ to_string accessToken)]}.

Definition _legacyHeader (st : state) : gmap string jsval :=
  let accessToken := if truthy (_token st) then prop (_token st) "apiToken"
                     else JStr "" in
  {["X-Auth-Token" := accessToken]}.

(** The local [authHeaders] of [_patchHeaders]. *)
Definition authHeaders (st : state) : gmap string jsval :=
  if isLegacy this then _legacyHeader st else _bearerAuthorizationHeader st.

Definition _patchHeaders (headers : option (gmap string jsval)) (st : state)
  : gmap string jsval :=
  let userAgentHeader := JStr ("ringcentral-engage-voice-js/v" +:+ to_string version) in
  default ∅ headers
    ∪ <["RC-User-Agent" := userAgentHeader]>
        (<["X-User-Agent" := userAgentHeader]> (authHeaders st)).

(** The URL that [request] computes from [config.url]. *)
Definition resolve_uri (url : string) : URI.parts :=
  let uri := URI.parse url in
  if String.eqb (URI.get_hostname uri) "" then
    let prefix := if Str.startsWith url (apiPrefix this)
                     || Str.startsWith url ("/" +:+ apiPrefix this)
                  then "" else apiPrefix this in
    let path := URI.joinPaths [URI.parse prefix; URI.parse url] in
    parseUrl (server this) path
  else uri.

(** The URL Resolver: the string [request] passes on as [url]. *)
Definition resolve (url : string) : string := URI.toString (resolve_uri url).

(** The configuration [request] hands to the transport. *)
Definition dispatched (config : Axios.config) (st : state) : Axios.config :=
  Axios.mk (Axios.method config) (resolve (Axios.url config)) (Axios.data config)
           (Some (_patchHeaders (Axios.headers config) st)) (Axios.other config).

Definition request (config : Axios.config) : M jsval :=
  st ← get_state;
  axios_request (dispatched config st).

Definition get (url : string) (config : Axios.config) : M jsval :=
  request (Axios.mk (Some "get") url (Axios.data config)
                    (Axios.headers config) (Axios.other config)).

Definition delete (url : string) (config : Axios.config) : M jsval :=
  request (Axios.mk (Some "delete") url (Axios.data config)
                    (Axios.headers config) (Axios.other config)).




Definition getLegacyToken (args : list jsval) : M jsval :=
  let arg := hd JUndefined args in
  username ← get_prop arg "username";
  password ← get_prop arg "password";
  let url := server this +:+ "/api/v1/auth/login" in
  let body := "username=" +:+ to_string username
              +:+ "&password=" +:+ to_string password in
  res ← axios_request
          (Axios.mk (Some "post") url (JStr body)
             (Some {["Content-Type" := JStr "application/x-www-form-urlencoded"]}) ∅);
  r ← get_prop res "data";
  let url1 := server this +:+ "/api/v1/admin/token" in
  authToken ← get_prop r "authToken";
  res1 ← axios_request
           (Axios.mk (Some "post") url1 JUndefined
              (Some {["X-Auth-Token" := js_or authToken (JStr "")]}) ∅);
  r1 ← get_prop res1 "data";
  bundle ← new_object (<["apiToken" := r1]> (spread r));
  token [bundle];;
  mret JUndefined.

Definition legacyAuthorize (args : list jsval) : M jsval :=
  getLegacyToken args;; mret JUndefined.

Definition authorize (args : list jsval) : M jsval :=
  if isLegacy this then
    legacyAuthorize args;; mret JUndefined
  else
    st ← get_state;
    match rc_login (session st) args with
    | inl session' =>
        set_session session';;
        getToken JUndefined;;
        mret JUndefined
    | inr e => throw (ThrowValue e)
    end.

(** The promise that [this.delete] returns is dropped: the request is
    made, its outcome is not observed. *)
Definition revokeLegacyToken : M jsval := fun st =>
  if truthy (_token st) then
    let url := "/api/v1/admin/token/" +:+ to_string (prop (_token st) "apiToken")
               +:+ String LF "    X" in
    (Return JUndefined, snd (delete url Axios.empty st))
  else (Return JUndefined, st).

End Client.

(** ** Specification-side definitions *)

(** ServerMode, derived from the configured server at construction. *)
Inductive ServerMode : Type := Legacy | Modern.

Definition mode (this : client) : ServerMode :=
  if isLegacy this then Legacy else Modern.

(** [v?.k] and [a ?? b]. *)
Definition opt_prop (v : jsval) (k : string) : jsval :=
  if nullish v then JUndefined else prop v k.

Definition nullish_or (a b : jsval) : jsval := if nullish a then b else a.

(** Header injection as the specification words it:
    Legacy gives [{'X-Auth-Token': bundle?.apiToken ?? ''}], Modern gives
    [{'Authorization': 'Bearer ' + (bundle?.accessToken ?? '')}]. *)
Definition spec_auth_headers (m : ServerMode) (bundle : jsval) : gmap string jsval :=
  match m with
  | Legacy => {["X-Auth-Token" := nullish_or (opt_prop bundle "apiToken") (JStr "")]}
  | Modern =>
      {["Authorization" :=
          JStr ("Bearer " +:+ to_string (nullish_or (opt_prop bundle "accessToken") (JStr "")))]}
  end.

(** The bundle field each mode's header reads. *)
Definition credential_field (m : ServerMode) : string :=
  match m with Legacy => "apiToken" | Modern => "accessToken" end.

(** What the code reads as the credential: nothing when no bundle is
    stored, else the bundle's field as it is. *)
Definition credential (m : ServerMode) (bundle : jsval) : jsval :=
  if truthy bundle then prop bundle (credential_field m) else JStr "".

Definition header_name (m : ServerMode) : string :=
  match m with Legacy => "X-Auth-Token" | Modern => "Authorization" end.

Definition header_value (m : ServerMode) (t : jsval) : jsval :=
  match m with Legacy => t | Modern => JStr ("Bearer " +:+ to_string t) end.

(** The requests of the authentication engine, as the specification lists
    them. *)
Definition form_headers : option (gmap string jsval) :=
  Some {["Content-Type" := JStr "application/x-www-form-urlencoded"]}.

Definition login_request (this : client) (u p : string) : Axios.config :=
  Axios.mk (Some "post") (server this +:+ "/api/v1/auth/login")
           (JStr ("username=" +:+ u +:+ "&password=" +:+ p)) form_headers ∅.

Definition exchange_request (this : client) (authToken : jsval) : Axios.config :=
  Axios.mk (Some "post") (server this +:+ "/api/v1/admin/token") JUndefined
           (Some {["X-Auth-Token" := authToken]}) ∅.

Definition access_token_request (this : client) (body : string) : Axios.config :=
  Axios.mk (Some "post")
           (server this +:+ "/api/auth/login/rc/accesstoken?includeRefresh=true")
           (JStr body) form_headers ∅.

(** The error the wrapper throws for a rejection [e]. *)
Definition classified (e : jsval) : thrown :=
  if nullish e then ThrowTypeError "response"
  else let response := prop e "response" in
       if truthy response
       then ThrowHTTPError
              (HTTPError.mk (prop response "status") (prop response "statusText")
                            (prop response "data") (prop response "config"))
       else ThrowValue e.

(** Clients and states used in the examples. *)
Definition modern_client : client :=
  constructor (mkOptions (JStr "id") (JStr "secret") None None None).

Definition legacy_client : client :=
  constructor (mkOptions (JStr "id") (JStr "secret") (Some "https://portal.vacd.biz") None None).

(** A legacy client whose requests are not prefixed. *)
Definition legacy_client_bare : client :=
  constructor (mkOptions (JStr "id") (JStr "secret") (Some "https://portal.vacd.biz")
                         None (Some "")).

Definition with_token (v : jsval) : state := mkState v [] [] JUndefined 1.

(** Method and URL of the requests made. *)
Definition calls (st : state) : list (option string * string) :=
  map (fun c => (Axios.method c, Axios.url c)) (sent st).

(** A transport that rejects every request with [e]. *)
Definition rejecting (e : jsval) : list Axios.config -> Axios.config -> Axios.settled :=
  fun _ _ => Axios.Rejected e.

(** A transport that answers the [n]-th request with the [n]-th element of
    a script and rejects once the script is exhausted. *)
Definition scripted (script : list Axios.settled)
  : list Axios.config -> Axios.config -> Axios.settled :=
  fun history _ => nth (length history) script (Axios.Rejected JUndefined).

Definition response_with (l : loc) (data : jsval) : jsval :=
  JObj l {["status" := JNum 200; "data" := data]}.

(** The rejection of the specification's example. *)
Definition unauthorized : jsval :=
  JObj 10 {["response" :=
              JObj 11 {["status" := JNum 401; "statusText" := JStr "Unauthorized";
                        "data" := JObj 12 {["msg" := JStr "x"]};
                        "config" := JObj 13 ∅]}]}.

(** A run of setter calls [token(v1); token(v2); ...]. *)
Fixpoint set_tokens (vs : list jsval) : M unit :=
  match vs with
  | [] => mret tt
  | v :: r => token [v];; set_tokens r
  end.

(** The notifications such a run is to raise: one for each argument that
    differs from the bundle stored when it is set. *)
Fixpoint notifications (stored : jsval) (vs : list jsval) : list (string * jsval) :=
  match vs with
  | [] => []
  | v :: r =>
      (if strict_eq stored v then [] else [("tokenChanged", v)]) ++ notifications v r
  end.

(** *** URLs

    The shapes of URL the resolver's properties are stated for. *)

(** The characters the library's path encoding keeps, the colon apart. *)
Definition segment_char (c : ascii) : bool :=
  URI.path_safe c && negb (Ascii.eqb c ":").

(** A plain path segment: not empty, of such characters, not starting with
    a dot (so neither [.] nor [..]). *)
Definition plain_segment (s : string) : bool :=
  match s with
  | EmptyString => false
  | String c _ => negb (Ascii.eqb c ".") && Str.forallb segment_char s
  end.

(** [is_not c] holds of the characters other than [c]. *)
Definition is_not (c : ascii) (a : ascii) : bool := negb (Ascii.eqb a c).

(** The characters of a path of plain segments. *)
Definition path_ok (c : ascii) : bool := segment_char c || Ascii.eqb c "/".

(** A path that normalisation leaves alone: no slash is followed by a dot
    or by another slash. *)
Fixpoint clean_path (s : string) : bool :=
  match s with
  | EmptyString => true
  | String c r =>
      (if Ascii.eqb c "/"
       then match r with
            | String d _ => negb (Ascii.eqb d ".") && negb (Ascii.eqb d "/")
            | EmptyString => true
            end
       else true)
      && clean_path r
  end.

Definition starts_with_char (s : string) (c : ascii) : bool :=
  match s with
  | String d _ => Ascii.eqb d c
  | EmptyString => false
  end.

(** [J] is the path [segs.join('/')] of plain segments. *)
Record joined (segs : list string) (J : string) : Prop := {
  joined_eq : J = Str.join "/" segs;
  joined_ok : Str.forallb path_ok J = true;
  joined_clean : clean_path J = true;
  joined_head : exists c r, J = String c r /\ Ascii.eqb c "." = false
                            /\ Ascii.eqb c "/" = false;
  joined_split : Str.split "/" J = segs;
  joined_recode : Str.join "/" (map (URI.recode URI.path_safe) segs) = J
}.

(** The characters allowed in the components of a well-formed URI: the
    ones that parsing neither removes nor takes for a delimiter. *)
Definition host_char (c : ascii) : bool := URI.unreserved c.

Definition path_char (c : ascii) : bool :=
  negb (URI.is_tab_newline c) && negb (Str.mem c "#?\").

Definition query_char (c : ascii) : bool :=
  negb (URI.is_tab_newline c) && negb (Ascii.eqb c "#").

Definition fragment_char (c : ascii) : bool := negb (URI.is_tab_newline c).

Definition nonempty_all (f : ascii -> bool) (s : string) : bool :=
  negb (Str.is_empty s) && Str.forallb f s.

Definition opt_ok (f : string -> bool) (o : option string) : bool :=
  match o with
  | None => true
  | Some s => f s
  end.

(** The number a string of digits denotes. *)
Fixpoint digits_value (acc : N) (s : string) : N :=
  match s with
  | EmptyString => acc
  | String c r => digits_value (10 * acc + (N.of_nat (nat_of_ascii c) - 48))%N r
  end.

(** A port the library accepts: digits that denote 1 to 65535. *)
Definition port_ok (n : string) : bool :=
  nonempty_all Str.is_digit n
  && (1 <=? digits_value 0 n)%N && (digits_value 0 n <=? 65535)%N.

(** Absolute URIs of the shape
    [[scheme:]//host[:port]/path[?query][#fragment]], without user
    information, with a host name of unreserved characters. *)
Definition well_formed (p : URI.parts) : bool :=
  negb (URI.urn p)
  && opt_ok URI.protocol_ok (URI.protocol p)
  && bool_decide (URI.username p = None)
  && bool_decide (URI.password p = None)
  && match URI.hostname p with
     | Some h => nonempty_all host_char h
     | None => false
     end
  && opt_ok port_ok (URI.port p)
  && Str.startsWith (URI.path p) "/"
  && Str.forallb path_char (URI.path p)
  && opt_ok (nonempty_all query_char) (URI.query p)
  && opt_ok (nonempty_all fragment_char) (URI.fragment p).

(** A server given as an origin: scheme and authority, nothing after. *)
Definition is_origin (server : string) : bool :=
  let u := URI.parse server in
  well_formed u
  && String.eqb (URI.path u) "/"
  && bool_decide (URI.query u = None)
  && bool_decide (URI.fragment u = None)
  && String.eqb (URI.build u) (server +:+ "/").



Definition query_part (qu : option string) : string :=
  match qu with Some q => "?" +:+ q | None => "" end.

Definition fragment_part (fr : option string) : string :=
  match fr with Some f => "#" +:+ f | None => "" end.

(** *** Runs of the engine

    What the properties of whole runs are stated with. *)

(** The notification a setter call raises. *)
Definition notification (stored v : jsval) : list (string * jsval) :=
  if strict_eq stored v then [] else [("tokenChanged", v)].

(** The state once a request has been handed to the transport. *)
Definition after_request (c : Axios.config) (st : state) : state :=
  mkState (_token st) (emitted st) (sent st ++ [c]) (session st) (next_loc st).

(** The request of the token exchange called with [refreshToken]. *)
Definition token_exchange (this : client) (refreshToken : jsval) (st : state)
  : Axios.config :=
  access_token_request this
    (if truthy refreshToken
     then "refreshToken=" +:+ to_string refreshToken +:+ "&rcTokenType=Bearer"
     else "rcAccessToken="
          +:+ to_string (js_or (prop (session st) "access_token") (JStr ""))
          +:+ "&rcTokenType=Bearer").

(** The first request of the legacy login for the credentials [creds]. *)
Definition login_request_of (this : client) (creds : jsval) : Axios.config :=
  login_request this (to_string (prop creds "username"))
                     (to_string (prop creds "password")).

(** The bundle the legacy login stores, from the data of its two
    responses. *)
Definition legacy_bundle (l : loc) (r r1 : jsval) : jsval :=
  JObj l (<["apiToken" := r1]> (spread r)).

(** [l] is not the identity of [v]. *)
Definition is_fresh (l : loc) (v : jsval) : bool :=
  match v with
  | JObj l' _ => negb (Nat.eqb l' l)
  | _ => true
  end.

(** The user-agent header value. *)
Definition user_agent (version : jsval) : jsval :=
  JStr ("ringcentral-engage-voice-js/v" +:+ to_string version).

(** ** Facts about strings *)

Local Arguments Ascii.eqb : simpl never.

Module StrFacts.

Lemma sapp_cons (c : ascii) (s t : string) : String c s +:+ t = String c (s +:+ t).
Proof. reflexivity. Qed.

Lemma sapp_nil_l (t : string) : "" +:+ t = t.
Proof. reflexivity. Qed.

(** Push string appends inwards. *)
Ltac sapp := rewrite ?sapp_cons, ?sapp_nil_l.

Lemma sapp_nil_r (s : string) : s +:+ "" = s.
Proof. induction s as [|c s IH]; sapp; [reflexivity|by rewrite IH]. Qed.

Lemma sapp_assoc (a b c : string) : (a +:+ b) +:+ c = a +:+ (b +:+ c).
Proof. induction a as [|x a IH]; sapp; [reflexivity|by rewrite IH]. Qed.

Lemma slength_app (a b : string) :
  String.length (a +:+ b) = String.length a + String.length b.
Proof. induction a as [|x a IH]; sapp; cbn; [reflexivity|by rewrite IH]. Qed.

Lemma sapp_inv_tail (a b t : string) : a +:+ t = b +:+ t -> a = b.
Proof.
  revert b. induction a as [|x a IH]; intros [|y b] H; rewrite ?sapp_cons, ?sapp_nil_l in H.
  - reflexivity.
  - apply (f_equal String.length) in H. cbn in H.
    rewrite slength_app in H. lia.
  - apply (f_equal String.length) in H. cbn in H.
    rewrite slength_app in H. lia.
  - injection H as -> H. f_equal. by apply IH.
Qed.

Lemma forallb_app (f : ascii -> bool) (a b : string) :
  Str.forallb f (a +:+ b) = Str.forallb f a && Str.forallb f b.
Proof.
  induction a as [|x a IH]; sapp; cbn; [reflexivity|].
  by rewrite IH, andb_assoc.
Qed.

Lemma forallb_impl (f g : ascii -> bool) (s : string) :
  (forall c, f c = true -> g c = true) ->
  Str.forallb f s = true -> Str.forallb g s = true.
Proof.
  intros Hfg. induction s as [|x s IH]; cbn; [done|].
  intros [Hx Hs]%andb_true_iff. rewrite (Hfg _ Hx). by apply IH.
Qed.

Lemma break_none (c : ascii) (s : string) :
  Str.forallb (is_not c) s = true -> Str.break c s = (s, None).
Proof.
  induction s as [|x s IH]; cbn; [done|].
  intros [Hx Hs]%andb_true_iff. unfold is_not in Hx.
  apply negb_true_iff in Hx. rewrite Hx. by rewrite (IH Hs).
Qed.

Lemma break_app (c : ascii) (a b : string) :
  Str.forallb (is_not c) a = true ->
  Str.break c (a +:+ String c b) = (a, Some b).
Proof.
  induction a as [|x a IH]; sapp; cbn.
  - intros _. by rewrite Ascii.eqb_refl.
  - intros [Hx Hs]%andb_true_iff. unfold is_not in Hx.
    apply negb_true_iff in Hx. rewrite Hx. by rewrite (IH Hs).
Qed.


Lemma filter_id (f : ascii -> bool) (s : string) :
  Str.forallb f s = true -> Str.filter f s = s.
Proof.
  induction s as [|x s IH]; cbn; [done|].
  intros [Hx Hs]%andb_true_iff. by rewrite Hx, (IH Hs).
Qed.


Lemma split_none (c : ascii) (s : string) :
  Str.forallb (is_not c) s = true -> Str.split c s = [s].
Proof.
  induction s as [|x s IH]; cbn; [done|].
  intros [Hx Hs]%andb_true_iff. unfold is_not in Hx.
  apply negb_true_iff in Hx. by rewrite Hx, (IH Hs).
Qed.

Lemma split_app (c : ascii) (a b : string) :
  Str.forallb (is_not c) a = true ->
  Str.split c (a +:+ String c b) = a :: Str.split c b.
Proof.
  induction a as [|x a IH]; sapp; cbn.
  - intros _. by rewrite Ascii.eqb_refl.
  - intros [Hx Hs]%andb_true_iff. unfold is_not in Hx.
    apply negb_true_iff in Hx. by rewrite Hx, (IH Hs).
Qed.

Lemma join_cons (sep x : string) (y : string) (r : list string) :
  Str.join sep (x :: y :: r) = x +:+ sep +:+ Str.join sep (y :: r).
Proof. reflexivity. Qed.

Lemma split_join (c : ascii) (segs : list string) :
  segs <> [] ->
  Forall (fun s => Str.forallb (is_not c) s = true) segs ->
  Str.split c (Str.join (String c "") segs) = segs.
Proof.
  induction segs as [|x [|y r] IH]; intros Hne Hall; [done| |].
  - cbn. apply split_none. by inversion Hall.
  - rewrite join_cons. sapp.
    inversion Hall as [|? ? Hx Hr]; subst.
    rewrite (split_app _ _ _ Hx). f_equal. by apply IH.
Qed.

End StrFacts.

Import StrFacts.

(** Decide a property of every character by enumeration. *)
Ltac by_ascii :=
  let c := fresh "c" in
  intros c; destruct c as [[] [] [] [] [] [] [] []]; vm_compute;
  (reflexivity || (intros; congruence)).


(** Prove that every character of a string built from known pieces lies
    in a class. *)
Ltac all_chars :=
  match goal with
  | |- Str.forallb _ (String _ _) = true =>
      cbn [Str.forallb]; apply andb_true_iff; split; [reflexivity|all_chars]
  | |- Str.forallb _ EmptyString = true => reflexivity
  | |- true = true => reflexivity
  | |- Str.forallb _ (_ +:+ _) = true =>
      rewrite forallb_app; apply andb_true_iff; split; all_chars
  | H : Str.forallb ?f ?s = true |- Str.forallb ?g ?s = true =>
      apply (forallb_impl f g s); [by_ascii|exact H]
  end.

(** ** Facts about the URL library *)

Module URIFacts.

Lemma path_ok_not_ws : forall c, path_ok c = true -> URI.is_leading_ws c = false.
Proof. by_ascii. Qed.
Lemma path_ok_not_tab : forall c, path_ok c = true -> negb (URI.is_tab_newline c) = true.
Proof. by_ascii. Qed.
Lemma path_ok_not_hash : forall c, path_ok c = true -> is_not "#" c = true.
Proof. by_ascii. Qed.
Lemma path_ok_not_question : forall c, path_ok c = true -> is_not "?" c = true.
Proof. by_ascii. Qed.
Lemma path_ok_not_colon : forall c, path_ok c = true -> is_not ":" c = true.
Proof. by_ascii. Qed.
Lemma path_ok_is_slash : forall c, path_ok c = true ->
  Ascii.eqb c "/" = false -> URI.is_slash c = false.
Proof. by_ascii. Qed.
Lemma segment_char_path_ok : forall c, segment_char c = true -> path_ok c = true.
Proof. by_ascii. Qed.
Lemma segment_char_not_slash : forall c, segment_char c = true -> is_not "/" c = true.
Proof. by_ascii. Qed.
Lemma segment_char_safe : forall c, segment_char c = true ->
  URI.path_safe c = true /\ Ascii.eqb c "%" = false.
Proof. intros c; destruct c as [[] [] [] [] [] [] [] []]; vm_compute; intros; split; congruence. Qed.

Lemma drop_while_head (f : ascii -> bool) (g : ascii -> bool) (s : string) :
  (forall c, g c = true -> f c = false) ->
  Str.forallb g s = true -> Str.drop_while f s = s.
Proof.
  intros Hgf. destruct s as [|c s]; cbn; [done|].
  intros [Hc _]%andb_true_iff. by rewrite (Hgf _ Hc).
Qed.

Lemma strip_prefix_ci_forallb (f : ascii -> bool) (p : string) :
  forall s m r, URI.strip_prefix_ci p s = Some (m, r) ->
                Str.forallb f s = true -> Str.forallb f r = true.
Proof.
  induction p as [|a p IH]; intros s m r; cbn.
  - by intros [= <- <-].
  - destruct s as [|b s]; [done|].
    destruct (Ascii.eqb (Str.lower a) (Str.lower b)); [|done].
    destruct (URI.strip_prefix_ci p s) as [[m' r']|] eqn:E; [|done].
    intros [= <- <-]. cbn. intros [_ Hs]%andb_true_iff. by eapply IH.
Qed.

Lemma colon_slashes_none (s : string) :
  Str.forallb (is_not ":") s = true -> URI.colon_slashes s = None.
Proof.
  destruct s as [|c s]; cbn; [done|].
  intros [Hc _]%andb_true_iff. unfold is_not in Hc. unfold URI.is_colon.
  apply negb_true_iff in Hc. by rewrite Hc.
Qed.

Lemma scheme_match_none (s p : string) :
  Str.forallb (is_not ":") s = true -> URI.scheme_match s p = None.
Proof.
  intros H. unfold URI.scheme_match.
  destruct (URI.strip_prefix_ci p s) as [[m r]|] eqn:E; [|done].
  by rewrite (colon_slashes_none r (strip_prefix_ci_forallb _ _ _ _ _ E H)).
Qed.

Lemma fix_web_scheme_no_colon (s : string) :
  Str.forallb (is_not ":") s = true -> URI.fix_web_scheme s = s.
Proof.
  intros H. unfold URI.fix_web_scheme, URI.web_schemes, URI.first_match.
  by rewrite !scheme_match_none, colon_slashes_none.
Qed.

Lemma two_slashes_startsWith (s : string) :
  URI.two_slashes s = false -> Str.startsWith s "//" = false.
Proof.
  destruct s as [|a [|b s]]; cbn; try done.
  - by rewrite andb_false_r.
  - unfold URI.is_slash. rewrite andb_true_r, (Ascii.eqb_sym "/" a), (Ascii.eqb_sym "/" b).
    destruct (Ascii.eqb a "/"), (Ascii.eqb b "/"); cbn; try done.
    all: by rewrite ?orb_true_r.
Qed.

(** A string of path characters that does not start with two slashes
    parses as a relative reference with that path. *)
Lemma parse_relative (s : string) :
  Str.forallb path_ok s = true -> URI.two_slashes s = false ->
  URI.parse s = URI.set_path URI.empty_parts s.
Proof.
  intros Hok H2. unfold URI.parse.
  rewrite (drop_while_head _ _ _ path_ok_not_ws Hok).
  rewrite (filter_id _ _ (forallb_impl _ _ _ path_ok_not_tab Hok)).
  rewrite (break_none _ _ (forallb_impl _ _ _ path_ok_not_hash Hok)).
  rewrite (break_none _ _ (forallb_impl _ _ _ path_ok_not_question Hok)).
  rewrite (fix_web_scheme_no_colon _ (forallb_impl _ _ _ path_ok_not_colon Hok)).
  unfold URI.fix_leading_slashes. rewrite H2.
  rewrite (two_slashes_startsWith _ H2).
  by rewrite (break_none _ _ (forallb_impl _ _ _ path_ok_not_colon Hok)).
Qed.

Lemma rstrip_id (f : ascii -> bool) (s : string) :
  Str.forallb (fun c => negb (f c)) s = true -> Str.rstrip f s = s.
Proof.
  induction s as [|c s IH]; cbn; [done|].
  intros [Hc Hs]%andb_true_iff. rewrite (IH Hs).
  apply negb_true_iff in Hc. by rewrite Hc, andb_false_r.
Qed.

Lemma trimSlashes_id (s : string) :
  Str.forallb (is_not "/") s = true -> URI.trimSlashes s = s.
Proof.
  intros H. unfold URI.trimSlashes.
  rewrite (drop_while_head _ (is_not "/") s); [|by intros c ->%negb_true_iff|done].
  by apply rstrip_id.
Qed.

Lemma recode_id (s : string) :
  Str.forallb segment_char s = true -> URI.recode URI.path_safe s = s.
Proof.
  induction s as [|c s IH]; cbn [URI.recode Str.forallb]; [done|].
  intros [Hc Hs]%andb_true_iff.
  destruct (segment_char_safe _ Hc) as [Hsafe Hpct].
  rewrite Hpct. unfold URI.encode_char. rewrite Hsafe, (IH Hs). reflexivity.
Qed.

(** *** Paths made of plain segments *)

Lemma plain_segment_inv (x : string) :
  plain_segment x = true ->
  exists c r, x = String c r /\ segment_char c = true
              /\ Ascii.eqb c "." = false /\ Ascii.eqb c "/" = false
              /\ Str.forallb segment_char x = true.
Proof.
  destruct x as [|c r]; [done|]. unfold plain_segment.
  intros [Hd Hall]%andb_true_iff. exists c, r.
  pose proof Hall as [Hc _]%andb_true_iff.
  pose proof (segment_char_not_slash _ Hc) as Hs. unfold is_not in Hs.
  apply negb_true_iff in Hd, Hs. done.
Qed.

Lemma clean_app_segment (x t : string) :
  Str.forallb (is_not "/") x = true -> clean_path (x +:+ t) = clean_path t.
Proof.
  induction x as [|c x IH]; sapp; [done|]. cbn [Str.forallb clean_path].
  intros [Hc Hx]%andb_true_iff. unfold is_not in Hc. apply negb_true_iff in Hc.
  by rewrite Hc, (IH Hx).
Qed.

Lemma clean_segment (x : string) :
  Str.forallb (is_not "/") x = true -> clean_path x = true.
Proof. intros H. by rewrite <- (sapp_nil_r x), (clean_app_segment _ _ H). Qed.

Lemma plain_joined (segs : list string) :
  segs <> [] -> Forall (fun s => plain_segment s = true) segs ->
  joined segs (Str.join "/" segs).
Proof.
  induction segs as [|x [|y r] IH]; intros Hne Hall; [done| |].
  - inversion Hall as [|? ? Hx _]; subst.
    destruct (plain_segment_inv _ Hx) as (c & t & -> & Hc & Hd & Hs & Hall').
    pose proof (forallb_impl _ _ _ segment_char_not_slash Hall') as Hns.
    split; cbn [Str.join map].
    + reflexivity.
    + by apply (forallb_impl _ _ _ segment_char_path_ok).
    + by apply clean_segment.
    + by exists c, t.
    + by apply split_none.
    + by apply recode_id.
  - inversion Hall as [|? ? Hx Hr]; subst.
    destruct (IH ltac:(done) Hr) as [_ Hok Hcl (d & u & Hd & Hdd & Hds) Hsp Hrc].
    destruct (plain_segment_inv _ Hx) as (c & t & -> & Hc & Hcd & Hcs & Hall').
    pose proof (forallb_impl _ _ _ segment_char_not_slash Hall') as Hns.
    rewrite join_cons. split.
    + reflexivity.
    + rewrite forallb_app, (forallb_impl _ _ _ segment_char_path_ok Hall').
      sapp. cbn [Str.forallb]. by rewrite Hok.
    + rewrite (clean_app_segment _ _ Hns). sapp. cbn [clean_path].
      rewrite Hcl, Hd, Ascii.eqb_refl, Hdd, Hds. done.
    + sapp. by exists c, (t +:+ String "/" (Str.join "/" (y :: r))).
    + sapp. rewrite <- sapp_cons. rewrite (split_app _ _ _ Hns). by rewrite Hsp.
    + cbn [map]. rewrite join_cons, <- Hrc. cbn [map].
      by rewrite (recode_id _ Hall').
Qed.

(** *** Normalisation leaves a clean path alone *)

Lemma clean_tail (c : ascii) (s : string) :
  clean_path (String c s) = true -> clean_path s = true.
Proof. cbn. by intros [_ H]%andb_true_iff. Qed.

Lemma clean_after_slash (s : string) :
  clean_path (String "/" s) = true ->
  starts_with_char s "." = false /\ starts_with_char s "/" = false.
Proof.
  cbn [clean_path]. rewrite Ascii.eqb_refl. destruct s as [|d s]; [done|].
  intros [[H1 H2]%andb_true_iff _]%andb_true_iff.
  apply negb_true_iff in H1, H2. done.
Qed.

Lemma resolve_simples_clean (s : string) :
  clean_path s = true ->
  forall st, (st <> URI.Plain -> starts_with_char s "." = false) ->
             URI.resolve_simples st s = s.
Proof.
  induction s as [|c s IH]; intros Hcl st Hst; [done|].
  cbn [URI.resolve_simples].
  assert ((if Ascii.eqb c "/" then String c (URI.resolve_simples URI.AfterSlash s)
           else String c (URI.resolve_simples URI.Plain s)) = String c s) as Hnormal.
  { destruct (Ascii.eqb_spec c "/") as [->|].
    - rewrite IH; [done|by eapply clean_tail|].
      intros _. by apply clean_after_slash.
    - rewrite IH; [done|by eapply clean_tail|done]. }
  rewrite Hnormal.
  destruct st; [done| |].
  - cbn in Hst. by rewrite Hst.
  - cbn in Hst. by rewrite Hst.
Qed.

Lemma squeeze_clean (s : string) :
  clean_path s = true ->
  forall b, (b = true -> starts_with_char s "/" = false) ->
            URI.squeeze b s = s.
Proof.
  induction s as [|c s IH]; intros Hcl b Hb; [done|].
  cbn [URI.squeeze].
  destruct (Ascii.eqb_spec c "/") as [->|].
  - destruct b.
    + specialize (Hb eq_refl). cbn in Hb. by rewrite Ascii.eqb_refl in Hb.
    + rewrite IH; [done|by eapply clean_tail|].
      intros _. by apply clean_after_slash.
  - rewrite IH; [done|by eapply clean_tail|done].
Qed.

Lemma clean_drop (n : nat) : forall s,
  clean_path s = true -> clean_path (Str.drop n s) = true.
Proof.
  induction n as [|n IH]; intros [|c s] H; cbn [Str.drop]; try done.
  apply IH. by eapply clean_tail.
Qed.

Lemma endsWith_clean (s t : string) :
  clean_path s = true -> clean_path t = false -> Str.endsWith s t = false.
Proof.
  intros Hs Ht. unfold Str.endsWith.
  destruct (String.eqb_spec (Str.drop (String.length s - String.length t) s) t) as [E|];
    [|by rewrite andb_false_r].
  rewrite <- E, clean_drop in Ht; done.
Qed.

Lemma find_parent_clean (s : string) :
  clean_path s = true -> URI.find_parent s = None.
Proof.
  induction s as [|c s IH]; intros Hcl; [done|].
  cbn [URI.find_parent]. rewrite (IH (clean_tail _ _ Hcl)).
  assert (Str.startsWith (String c s) "/.." = false) as ->; [|done].
  cbn [Str.startsWith]. rewrite (Ascii.eqb_sym "/" c).
  destruct (Ascii.eqb_spec c "/") as [->|]; [|done].
  destruct (clean_after_slash _ Hcl) as [Hd _].
  destruct s as [|d s]; [done|]. cbn in Hd. cbn [Str.startsWith].
  by rewrite (Ascii.eqb_sym "." d), Hd.
Qed.

Lemma resolve_parents_clean (fuel : nat) (s : string) :
  clean_path s = true -> URI.resolve_parents fuel s = s.
Proof. intros H. destruct fuel; cbn; [done|]. by rewrite find_parent_clean. Qed.

Lemma recodePath_joined (segs : list string) (J : string) :
  joined segs J -> URI.recodePath J = J /\ URI.recodePath (String "/" J) = String "/" J.
Proof.
  intros [HJ _ _ (c & r & Hc & _ & Hs) Hsp Hrc]. unfold URI.recodePath. split.
  - by rewrite Hsp.
  - cbn [Str.split]. rewrite Ascii.eqb_refl, Hsp. cbn [map URI.recode].
    destruct segs as [|x segs]; [by subst J|].
    cbn [map]. rewrite join_cons. sapp. by rewrite <- Hrc.
Qed.

Lemma collapse_plain (segs : list string) : forall racc,
  Forall (fun s => plain_segment s = true) segs ->
  match racc with [] => True | h :: _ => Str.is_empty h = false end ->
  URI.collapse segs racc = rev racc ++ segs.
Proof.
  induction segs as [|x segs IH]; intros racc Hall Hr; cbn [URI.collapse].
  - by rewrite app_nil_r.
  - inversion Hall as [|? ? Hx Hs]; subst.
    destruct (plain_segment_inv _ Hx) as (c & t & -> & Hc & _ & _ & Hall').
    cbn [Str.is_empty andb].
    rewrite (trimSlashes_id _ (forallb_impl _ _ _ segment_char_not_slash Hall')).
    assert (match racc with
            | [] => []
            | h :: t0 => if Str.is_empty h then t0 else racc
            end = racc) as ->.
    { destruct racc as [|h t0]; [done|]. by rewrite Hr. }
    rewrite IH; [|done|done]. cbn [rev]. by rewrite <- app_assoc.
Qed.

Lemma normalizePath_clean (p : URI.parts) (segs : list string) (J : string) :
  joined segs J -> URI.urn p = false -> URI.path p = String "/" J ->
  URI.normalizePath p = p.
Proof.
  intros HJ Hurn Hp. pose proof HJ as [_ _ Hcl (c & r & Hc & Hd & Hs) _ _].
  assert (clean_path (String "/" J) = true) as Hcl'.
  { cbn [clean_path]. rewrite Ascii.eqb_refl, Hcl, Hc, Hd, Hs. done. }
  unfold URI.normalizePath. rewrite Hp, Hurn. cbn [Str.is_empty].
  destruct (String.eqb_spec (String "/" J) "/") as [E|_]; [done|].
  rewrite (proj2 (recodePath_joined _ _ HJ)).
  cbn [Str.startsWith]. rewrite Ascii.eqb_refl. cbn [andb negb].
  rewrite !(endsWith_clean _ _ Hcl') by reflexivity. cbn [orb].
  rewrite (resolve_simples_clean _ Hcl') by done.
  rewrite (squeeze_clean _ Hcl') by done.
  rewrite (resolve_parents_clean _ _ Hcl').
  destruct p; cbn in *; by subst.
Qed.

Lemma segment_absolute (p : URI.parts) (segs : list string) (J : string) :
  joined segs J -> URI.urn p = false -> URI.path p = String "/" J ->
  URI.segment p = segs.
Proof.
  intros [_ _ _ _ Hsp _] Hurn Hp. unfold URI.segment, URI.get_path, URI.separator.
  rewrite Hp, Hurn. cbn [Str.is_empty Str.startsWith Str.split].
  by rewrite Ascii.eqb_refl, Hsp.
Qed.

Lemma segment_relative (p : URI.parts) (segs : list string) (J : string) :
  joined segs J -> URI.urn p = false -> URI.path p = J ->
  URI.segment p = segs.
Proof.
  intros [_ _ _ (c & r & Hc & _ & Hs) Hsp _] Hurn Hp.
  unfold URI.segment, URI.get_path, URI.separator.
  rewrite Hp, Hurn. rewrite Hc in *. cbn [Str.is_empty Str.startsWith].
  by rewrite (Ascii.eqb_sym "/" c), Hs.
Qed.

Lemma path_set_nonempty (p : URI.parts) (v : string) :
  URI.urn p = false -> Str.is_empty v = false ->
  URI.path_set p v = URI.set_path p (URI.recodePath v).
Proof. intros Hu Hv. unfold URI.path_set. by rewrite Hu, Hv. Qed.

(** Joining a URI whose path has the single empty segment with a path of
    plain segments gives that path, made absolute. *)
Lemma joinPaths_plain (a b : URI.parts) (segs : list string) :
  segs <> [] -> Forall (fun s => plain_segment s = true) segs ->
  URI.segment a = [""] -> URI.segment b = segs ->
  Str.is_empty (URI.get_path a) || Str.startsWith (URI.get_path a) "/" = true ->
  URI.joinPaths [a; b] = URI.set_path URI.empty_parts (String "/" (Str.join "/" segs)).
Proof.
  intros Hne Hall Ha Hb Hfirst.
  pose proof (plain_joined _ Hne Hall) as HJ.
  destruct (recodePath_joined _ _ HJ) as [Hr1 Hr2].
  pose proof HJ as [_ _ _ (c & r & Hc & _ & _) _ _].
  unfold URI.joinPaths. cbn [flat_map]. rewrite Ha, Hb, app_nil_r.
  cbn [app List.filter Str.is_empty negb length Nat.eqb orb].
  destruct segs as [|x segs]; [done|].
  assert (Str.is_empty x = false) as Hx.
  { inversion Hall as [|? ? Hp _]; subst.
    by destruct (plain_segment_inv _ Hp) as (? & ? & -> & _). }
  cbn [List.filter]. rewrite Hx. cbn [negb length Nat.eqb].
  change (URI.parse "") with URI.empty_parts.
  assert (URI.segment_set URI.empty_parts ("" :: x :: segs)
          = URI.set_path URI.empty_parts (Str.join "/" (x :: segs))) as ->.
  { unfold URI.segment_set.
    change (URI.collapse ("" :: x :: segs) []) with (URI.collapse (x :: segs) []).
    rewrite collapse_plain by done. cbn [rev app].
    change (URI.get_path URI.empty_parts) with "".
    change (URI.separator URI.empty_parts) with "/"%char.
    cbn [Str.startsWith].
    rewrite path_set_nonempty, Hr1; [done|done|by rewrite Hc]. }
  rewrite Hfirst.
  assert (URI.path_set (URI.set_path URI.empty_parts (Str.join "/" (x :: segs)))
            ("/" +:+ URI.get_path (URI.set_path URI.empty_parts (Str.join "/" (x :: segs))))
          = URI.set_path URI.empty_parts (String "/" (Str.join "/" (x :: segs)))) as ->.
  { assert (URI.get_path (URI.set_path URI.empty_parts (Str.join "/" (x :: segs)))
            = Str.join "/" (x :: segs)) as ->.
    { unfold URI.get_path. cbn [URI.path URI.set_path]. by rewrite Hc. }
    sapp. by rewrite path_set_nonempty, Hr2. }
  by apply (normalizePath_clean _ _ _ HJ).
Qed.

Lemma build_path_only (P : string) :
  URI.build (URI.set_path URI.empty_parts P) = P.
Proof.
  unfold URI.build, URI.buildAuthority, URI.buildUserinfo, URI.buildHost. cbn.
  by rewrite andb_false_r.
Qed.

(** Building a URI without query and fragment: what precedes the path
    does not depend on it. *)
Lemma build_set_path (u : URI.parts) (P Q : string) :
  URI.query u = None -> URI.fragment u = None ->
  Str.startsWith P "/" = true -> Str.startsWith Q "/" = true ->
  exists X, URI.build (URI.set_path u P) = X +:+ P
            /\ URI.build (URI.set_path u Q) = X +:+ Q.
Proof.
  intros Hq Hf HP HQ. destruct u as [pr us pw ho po ur pa qu fr].
  cbn in Hq, Hf. subst.
  eexists. unfold URI.build, URI.set_path.
  cbn [URI.protocol URI.username URI.password URI.hostname URI.port URI.urn
       URI.path URI.query URI.fragment].
  rewrite HP, HQ. cbn [negb andb]. split; reflexivity.
Qed.

Lemma set_path_same (u : URI.parts) : URI.set_path u (URI.path u) = u.
Proof. by destruct u. Qed.

Lemma origin_facts (server : string) :
  is_origin server = true ->
  URI.urn (URI.parse server) = false
  /\ URI.get_path (URI.parse server) = "/"
  /\ URI.segment (URI.parse server) = [""]
  /\ forall P, Str.startsWith P "/" = true ->
               URI.build (URI.set_path (URI.parse server) P) = server +:+ P.
Proof.
  unfold is_origin. intros H.
  repeat (apply andb_true_iff in H as [H ?]).
  unfold well_formed in H. repeat (apply andb_true_iff in H as [H ?]).
  apply negb_true_iff in H.
  repeat match goal with
         | H : bool_decide _ = true |- _ => apply bool_decide_eq_true in H
         | H : String.eqb _ _ = true |- _ => apply String.eqb_eq in H
         end.
  set (u := URI.parse server) in *.
  assert (URI.get_path u = "/") as Hgp.
  { unfold URI.get_path. by replace (URI.path u) with "/". }
  repeat split; try done.
  - unfold URI.segment, URI.separator. by rewrite Hgp, H.
  - intros P HP.
    destruct (build_set_path u P "/") as (X & HX & HX'); try done.
    replace "/" with (URI.path u) in HX' at 1.
    rewrite set_path_same in HX'.
    replace (URI.build u) with (server +:+ "/") in HX'.
    apply sapp_inv_tail in HX'. by rewrite HX, HX'.
Qed.

End URIFacts.

Import URIFacts.

Module BuildFacts.


Lemma nonempty_all_inv (f : ascii -> bool) (s : string) :
  nonempty_all f s = true ->
  exists c r, s = String c r /\ f c = true /\ Str.forallb f s = true.
Proof.
  destruct s as [|c r]; [done|]. unfold nonempty_all. cbn [Str.is_empty negb andb].
  intros H. exists c, r. repeat split; [|done].
  cbn in H. by apply andb_true_iff in H as [? _].
Qed.


Lemma break_part (c : ascii) (a : string) (o : option string) :
  Str.forallb (is_not c) a = true ->
  Str.break c (a +:+ match o with Some x => String c "" +:+ x | None => "" end) = (a, o).
Proof.
  intros H. destruct o as [x|]; sapp.
  - by apply break_app.
  - rewrite sapp_nil_r. by apply break_none.
Qed.

Lemma non_empty_part (f : ascii -> bool) (o : option string) :
  opt_ok (nonempty_all f) o = true -> URI.non_empty (URI.or_empty o) = o.
Proof.
  destruct o as [x|]; [|done]. cbn [opt_ok].
  intros (c & r & -> & _)%nonempty_all_inv. reflexivity.
Qed.




Lemma two_slashes_head (a : ascii) (x : string) :
  URI.is_slash a = false -> URI.two_slashes (String a x) = false.
Proof. intros H. destruct x; cbn [URI.two_slashes]; by rewrite ?H. Qed.




End BuildFacts.

Import BuildFacts.

(** Unfold the monad's plumbing in the goal. *)
Ltac msimpl :=
  cbv [mbind M_bind mret M_ret get_state set_token set_session log_request
       emit throw new_object];
  cbn [fst snd negb _token emitted sent session next_loc].

(** ** Token store *)

Lemma token_set (v : jsval) (rest : list jsval) (st : state) :
  token (v :: rest) st =
    (Return JUndefined,
     mkState v
       (emitted st ++ (if strict_eq (_token st) v then [] else [("tokenChanged", v)]))
       (sent st) (session st) (next_loc st)).
Proof.
  unfold token, strict_neq. msimpl.
  destruct (strict_eq (_token st) v); msimpl; [|reflexivity].
  by rewrite app_nil_r.
Qed.

Lemma token_get (st : state) : token [] st = (Return (_token st), st).
Proof. reflexivity. Qed.

Lemma last_cons_default {A : Type} (r : list A) (v d : A) :
  List.last (v :: r) d = List.last r v.
Proof.
  revert v d. induction r as [|j r IH]; intros v d; [reflexivity|].
  change (List.last (v :: j :: r) d) with (List.last (j :: r) d).
  by rewrite !IH.
Qed.

Lemma set_tokens_run (vs : list jsval) : forall st : state,
  set_tokens vs st =
    (Return tt,
     mkState (List.last vs (_token st))
       (emitted st ++ notifications (_token st) vs)
       (sent st) (session st) (next_loc st)).
Proof.
  induction vs as [|v r IH]; intros st.
  - cbn. rewrite app_nil_r. by destruct st.
  - change (set_tokens (v :: r) st)
      with (match token [v] st with
            | (Return a, st') => set_tokens r st'
            | (Throw e, st') => (Throw e, st')
            end).
    rewrite token_set, IH. cbn [_token emitted sent session next_loc notifications].
    rewrite <- app_assoc. by rewrite last_cons_default.
Qed.

(** C2.  A setter call whose argument is [===] to the stored bundle emits
    nothing, any other emits exactly one [tokenChanged] carrying the new
    bundle; hence over any run of setter calls the events added are one per
    argument that differs from its predecessor, and setting the same
    bundle twice on a fresh client emits exactly one notification. *)
Theorem token_change_detection :
  (forall (v : jsval) (st : state),
      emitted (snd (token [v] st)) =
        emitted st ++ (if strict_eq (_token st) v then [] else [("tokenChanged", v)])
      /\ _token (snd (token [v] st)) = v)
  /\ (forall (vs : list jsval) (st : state),
        emitted (snd (set_tokens vs st)) = emitted st ++ notifications (_token st) vs)
  /\ (forall (l : loc) (fields : gmap string jsval) (sdk : jsval),
        emitted (snd (set_tokens [JObj l fields; JObj l fields] (initial sdk)))
        = [("tokenChanged", JObj l fields)])
  /\ (forall (l l' : loc) (f f' : gmap string jsval) (sdk : jsval),
        l <> l' ->
        emitted (snd (set_tokens [JObj l f; JObj l f; JObj l' f'] (initial sdk)))
        = [("tokenChanged", JObj l f); ("tokenChanged", JObj l' f')]).
Proof.
  repeat split.
  - by rewrite token_set.
  - by rewrite token_set.
  - intros vs st. by rewrite set_tokens_run.
  - intros l fields sdk. rewrite set_tokens_run. cbn.
    by rewrite Nat.eqb_refl.
  - intros l l' f f' sdk Hl. rewrite set_tokens_run. cbn.
    rewrite Nat.eqb_refl. by apply Nat.eqb_neq in Hl as ->.
Qed.

Lemma token_change_detection_witness :
  emitted (snd (set_tokens [JObj 1 ∅; JObj 1 ∅; JObj 2 ∅] (initial JUndefined)))
  = [("tokenChanged", JObj 1 ∅); ("tokenChanged", JObj 2 ∅)].
Proof.
  apply (proj2 (proj2 (proj2 token_change_detection)) 1 2 ∅ ∅ JUndefined).
  lia.
Defined.

(** ** Header injection *)

Lemma authHeaders_eq (this : client) (st : state) :
  authHeaders this st =
    {[header_name (mode this) := header_value (mode this) (credential (mode this) (_token st))]}.
Proof.
  unfold authHeaders, mode, _legacyHeader, _bearerAuthorizationHeader, credential.
  destruct (isLegacy this); reflexivity.
Qed.

(** C3, as the code has it.  The injected auth headers are a function of
    ServerMode and the stored bundle alone, and hold exactly one entry:
    [X-Auth-Token] for Legacy, [Authorization] for Modern.  The credential
    is the empty string when no bundle is stored and otherwise the bundle's
    [apiToken] / [accessToken] as read, so the headers equal the
    specification's formula whenever the bundle is absent or the field is
    neither [undefined] nor [null]. *)
Theorem auth_header_injection (this : client) (st : state) :
  authHeaders this st =
    {[header_name (mode this) := header_value (mode this) (credential (mode this) (_token st))]}
  /\ dom (authHeaders this st) = ({[header_name (mode this)]} : gset string)
  /\ (truthy (_token st) = false ->
      authHeaders this st = {[header_name (mode this) := header_value (mode this) (JStr "")]})
  /\ (truthy (_token st) = false
      \/ nullish (prop (_token st) (credential_field (mode this))) = false ->
      authHeaders this st = spec_auth_headers (mode this) (_token st)).
Proof.
  rewrite authHeaders_eq. repeat split.
  - by rewrite dom_singleton_L.
  - intros H. unfold credential. by rewrite H.
  - unfold credential, spec_auth_headers, nullish_or, opt_prop.
    intros [H|H].
    + rewrite H.
      assert (prop (_token st) (credential_field (mode this)) = JUndefined
              \/ nullish (_token st) = false) as [Hp|Hn].
      { destruct (_token st); cbn in *; auto; discriminate. }
      * destruct (mode this); cbn in *; rewrite ?Hp; by destruct (nullish (_token st)).
      * destruct (_token st); cbn in *; try discriminate; by destruct (mode this).
    + assert (nullish (_token st) = false /\ truthy (_token st) = true) as [Hn Ht].
      { destruct (_token st); cbn in *; try discriminate; auto. }
      rewrite Hn, Ht. destruct (mode this); cbn in *; by rewrite H.
Qed.

Lemma auth_header_injection_witness :
  authHeaders legacy_client (initial JUndefined) = {["X-Auth-Token" := JStr ""]}
  /\ authHeaders modern_client (with_token (JObj 0 {["accessToken" := JStr "xyz"]}))
     = spec_auth_headers Modern (JObj 0 {["accessToken" := JStr "xyz"]}).
Proof.
  split.
  - apply (proj1 (proj2 (proj2 (auth_header_injection legacy_client (initial JUndefined))))).
    reflexivity.
  - apply (proj2 (proj2 (proj2 (auth_header_injection modern_client
             (with_token (JObj 0 {["accessToken" := JStr "xyz"]})))))).
    right. reflexivity.
Defined.

(** C3 as stated fails: with a stored bundle that lacks [accessToken] a
    Modern client gets [Bearer undefined], not the formula's [Bearer ]. *)
Lemma auth_header_missing_field :
  authHeaders modern_client (with_token (JObj 0 ∅))
    = {["Authorization" := JStr "Bearer undefined"]}
  /\ spec_auth_headers (mode modern_client) (JObj 0 ∅)
    = {["Authorization" := JStr "Bearer "]}
  /\ authHeaders modern_client (with_token (JObj 0 ∅))
     <> spec_auth_headers (mode modern_client) (_token (with_token (JObj 0 ∅))).
Proof.
  split; [reflexivity|]. split; [reflexivity|].
  intros H. apply (f_equal (fun m => m !! "Authorization")) in H.
  vm_compute in H. discriminate H.
Qed.

(** ** Error classifier *)

Section Classifier.
Variable transport : list Axios.config -> Axios.config -> Axios.settled.

Lemma axios_request_rejected (config : Axios.config) (st : state) (e : jsval) :
  transport (sent st) config = Axios.Rejected e ->
  axios_request transport config st =
    classify e (mkState (_token st) (emitted st) (sent st ++ [config])
                        (session st) (next_loc st)).
Proof. intros H. unfold axios_request. msimpl. by rewrite H. Qed.

Lemma axios_request_fulfilled (config : Axios.config) (st : state) (res : jsval) :
  transport (sent st) config = Axios.Fulfilled res ->
  axios_request transport config st =
    (Return res, mkState (_token st) (emitted st) (sent st ++ [config])
                         (session st) (next_loc st)).
Proof. intros H. unfold axios_request. msimpl. by rewrite H. Qed.

Lemma classify_response {A : Type} (l : loc) (fields : gmap string jsval)
      (response : jsval) (st : state) :
  fields !! "response" = Some response ->
  truthy response = true ->
  classify (A := A) (JObj l fields) st =
    (Throw (ThrowHTTPError
              (HTTPError.mk (prop response "status") (prop response "statusText")
                            (prop response "data") (prop response "config"))), st).
Proof.
  intros H Ht. unfold classify, get_prop. cbn [nullish prop]. rewrite H.
  msimpl. cbn [from_option id]. by rewrite Ht.
Qed.

Lemma classify_no_response {A : Type} (l : loc) (fields : gmap string jsval) (st : state) :
  fields !! "response" = None ->
  classify (A := A) (JObj l fields) st = (Throw (ThrowValue (JObj l fields)), st).
Proof.
  intros H. unfold classify, get_prop. cbn [nullish prop]. by rewrite H.
Qed.
End Classifier.

(** C4.  When the transport rejects a dispatched request with an error that
    carries a response object, the caller receives an HTTPError whose
    [status], [statusText], [data] and [config] are the response's four
    fields; when the error has no [response] field the caller receives the
    very same error value. *)
Theorem error_classification
    (transport : list Axios.config -> Axios.config -> Axios.settled)
    (version : jsval) (this : client) (config : Axios.config) (st : state)
    (l : loc) (fields : gmap string jsval) :
  transport (sent st) (dispatched version this config st) = Axios.Rejected (JObj l fields) ->
  (forall (l' : loc) (rf : gmap string jsval) (s t d c : jsval),
      fields !! "response" = Some (JObj l' rf) ->
      rf !! "status" = Some s -> rf !! "statusText" = Some t ->
      rf !! "data" = Some d -> rf !! "config" = Some c ->
      exists err : HTTPError.t,
        fst (request transport version this config st) = Throw (ThrowHTTPError err)
        /\ HTTPError.status err = s /\ HTTPError.statusText err = t
        /\ HTTPError.data err = d /\ HTTPError.config err = c)
  /\ (fields !! "response" = None ->
      fst (request transport version this config st) = Throw (ThrowValue (JObj l fields))).
Proof.
  intros Hrej. unfold request. msimpl. split.
  - intros l' rf s t d c Hr Hs Ht Hd Hc.
    rewrite (axios_request_rejected _ _ _ _ Hrej).
    rewrite (classify_response _ _ _ _ Hr eq_refl). cbn [fst prop].
    rewrite Hs, Ht, Hd, Hc. eexists. split; [reflexivity|]. cbn. auto.
  - intros Hr. rewrite (axios_request_rejected _ _ _ _ Hrej).
    by rewrite (classify_no_response _ _ _ Hr).
Qed.

Lemma error_classification_witness :
  exists err : HTTPError.t,
    fst (get (rejecting unauthorized) JNull modern_client "calls" Axios.empty
             (initial JUndefined))
      = Throw (ThrowHTTPError err)
    /\ HTTPError.status err = JNum 401
    /\ HTTPError.statusText err = JStr "Unauthorized"
    /\ prop (HTTPError.data err) "msg" = JStr "x"
    /\ HTTPError.config err = JObj 13 ∅.
Proof.
  destruct (proj1 (error_classification (rejecting unauthorized) JNull modern_client
                     (Axios.mk (Some "get") "calls" JUndefined None ∅)
                     (initial JUndefined) 10 _ eq_refl)
              11 _ (JNum 401) (JStr "Unauthorized") (JObj 12 {["msg" := JStr "x"]})
              (JObj 13 ∅) eq_refl eq_refl eq_refl eq_refl eq_refl)
    as (err & Herr & Hs & Ht & Hd & Hc).
  exists err. rewrite Hs, Ht, Hd, Hc. repeat split. exact Herr.
Defined.

(** ** Authentication engine *)

(** ServerMode is Legacy exactly for the servers of [LEGACY_SERVERS]. *)
Lemma constructor_mode (o : options) :
  mode (constructor o) = Legacy <-> In (default SERVER (opt_server o)) LEGACY_SERVERS.
Proof.
  unfold mode, constructor. cbn [isLegacy]. unfold isLegacyServer.
  destruct (existsb _ LEGACY_SERVERS) eqn:E.
  - split; [intros _|done].
    apply existsb_exists in E as (x & Hin & Heq).
    by apply String.eqb_eq in Heq as ->.
  - split; [done|]. intros Hin.
    assert (existsb (String.eqb (default SERVER (opt_server o))) LEGACY_SERVERS = true)
      as E'; [|congruence].
    apply existsb_exists. eexists. split; [exact Hin|apply String.eqb_refl].
Qed.

Section Engine.
Variable transport : list Axios.config -> Axios.config -> Axios.settled.
Variable this : client.

Lemma classify_classified {A : Type} (e : jsval) (st : state) :
  classify (A := A) e st = (Throw (classified e), st).
Proof.
  unfold classify, classified, get_prop.
  destruct (nullish e); msimpl; [reflexivity|].
  by destruct (truthy (prop e "response")).
Qed.

Lemma get_prop_ok (v : jsval) (k : string) (st : state) :
  nullish v = false -> get_prop v k st = (Return (prop v k), st).
Proof. intros H. unfold get_prop. by rewrite H. Qed.

Lemma prop_not_nullish (v : jsval) (k : string) :
  prop v k <> JUndefined -> nullish v = false.
Proof. destruct v; cbn; congruence. Qed.

(** The exchange makes one request whatever comes back. *)
Lemma getToken_sent (refreshToken : jsval) (st : state) :
  sent (snd (getToken transport this refreshToken st)) =
    sent st ++
      [access_token_request this
         (if truthy refreshToken
          then "refreshToken=" +:+ to_string refreshToken +:+ "&rcTokenType=Bearer"
          else "rcAccessToken="
               +:+ to_string (js_or (prop (session st) "access_token") (JStr ""))
               +:+ "&rcTokenType=Bearer")].
Proof.
  unfold getToken, access_token_request, form_headers.
  destruct (truthy refreshToken) eqn:Hr; msimpl.
  - unfold axios_request. msimpl.
    match goal with |- context [transport ?h ?c] => destruct (transport h c) as [res|e] end.
    + msimpl. unfold get_prop. destruct (nullish res); msimpl; [reflexivity|].
      rewrite token_set. reflexivity.
    + by rewrite classify_classified.
  - assert (prop (session st) "access_token" =
            prop (if truthy (session st) then session st else JObj (next_loc st) ∅)
                 "access_token") as Hs.
    { destruct (session st) as [| |[]|n| |s|]; cbn; try reflexivity.
      - by destruct (n =? 0)%Z.
      - by destruct (String.eqb s ""). }
    destruct (truthy (session st)) eqn:Ht; msimpl.
    + rewrite get_prop_ok by (destruct (session st); cbn in *; congruence).
      unfold axios_request. msimpl.
      match goal with |- context [transport ?h ?c] => destruct (transport h c) as [res|e] end.
      * msimpl. unfold get_prop. destruct (nullish res); msimpl; [reflexivity|].
        rewrite token_set. reflexivity.
      * by rewrite classify_classified.
    + rewrite get_prop_ok by reflexivity. rewrite Hs.
      unfold axios_request. msimpl.
      match goal with |- context [transport ?h ?c] => destruct (transport h c) as [res|e] end.
      * msimpl. unfold get_prop. destruct (nullish res); msimpl; [reflexivity|].
        rewrite token_set. reflexivity.
      * by rewrite classify_classified.
Qed.
End Engine.

(** C10.  With no bundle stored, [refresh()] throws on reading
    [refreshToken] from the absent bundle: no request is made and the
    client, its token store included, is left as it was. *)
Theorem refresh_without_bundle
    (transport : list Axios.config -> Axios.config -> Axios.settled)
    (this : client) (st : state) :
  _token st = JUndefined ->
  refresh transport this st = (Throw (ThrowTypeError "refreshToken"), st)
  /\ sent (snd (refresh transport this st)) = sent st
  /\ _token (snd (refresh transport this st)) = JUndefined.
Proof.
  intros H.
  assert (refresh transport this st = (Throw (ThrowTypeError "refreshToken"), st)) as ->.
  { unfold refresh, get_prop. msimpl. by rewrite H. }
  auto.
Qed.

Lemma refresh_without_bundle_witness :
  refresh (scripted []) modern_client (initial JUndefined)
  = (Throw (ThrowTypeError "refreshToken"), initial JUndefined).
Proof.
  apply (refresh_without_bundle (scripted []) modern_client (initial JUndefined)).
  reflexivity.
Defined.

(** C7.  With a refresh token in the stored bundle, [refresh()] makes
    exactly one request, a POST to the access-token endpoint with body
    [refreshToken=<token>&rcTokenType=Bearer]; the exchange called without
    a refresh token posts [rcAccessToken=<t>&rcTokenType=Bearer] where [t]
    is the access token of the SDK's session, or empty when the session has
    none. *)
Theorem token_exchange_requests
    (transport : list Axios.config -> Axios.config -> Axios.settled)
    (this : client) (st : state) :
  (forall t : string,
      prop (_token st) "refreshToken" = JStr t -> t <> "" ->
      sent (snd (refresh transport this st)) =
        sent st ++ [access_token_request this
                      ("refreshToken=" +:+ t +:+ "&rcTokenType=Bearer")])
  /\ (forall a : string,
        prop (session st) "access_token" = JStr a ->
        sent (snd (getToken transport this JUndefined st)) =
          sent st ++ [access_token_request this
                        ("rcAccessToken=" +:+ a +:+ "&rcTokenType=Bearer")])
  /\ (prop (session st) "access_token" = JUndefined ->
      sent (snd (getToken transport this JUndefined st)) =
        sent st ++ [access_token_request this "rcAccessToken=&rcTokenType=Bearer"]).
Proof.
  repeat split.
  - intros t Ht Hne. unfold refresh. msimpl.
    rewrite get_prop_ok by (apply (prop_not_nullish _ "refreshToken"); congruence).
    rewrite getToken_sent, Ht. cbn [truthy to_string].
    destruct (String.eqb_spec t ""); [contradiction|reflexivity].
  - intros a Ha. rewrite getToken_sent, Ha. unfold js_or. cbn [truthy negb].
    destruct (String.eqb_spec a "") as [->|]; reflexivity.
  - intros Ha. by rewrite getToken_sent, Ha.
Qed.

Lemma token_exchange_requests_witness :
  sent (snd (refresh (scripted []) modern_client
               (with_token (JObj 0 {["refreshToken" := JStr "r1"]}))))
  = [access_token_request modern_client "refreshToken=r1&rcTokenType=Bearer"]
  /\ sent (snd (getToken (scripted []) modern_client JUndefined
                  (initial (JObj 0 {["access_token" := JStr "a1"]}))))
     = [access_token_request modern_client "rcAccessToken=a1&rcTokenType=Bearer"]
  /\ sent (snd (getToken (scripted []) modern_client JUndefined (initial JUndefined)))
     = [access_token_request modern_client "rcAccessToken=&rcTokenType=Bearer"].
Proof.
  split; [|split].
  - apply (proj1 (token_exchange_requests (scripted []) modern_client
                    (with_token (JObj 0 {["refreshToken" := JStr "r1"]}))) "r1").
    + reflexivity.
    + discriminate.
  - apply (proj1 (proj2 (token_exchange_requests (scripted []) modern_client
                    (initial (JObj 0 {["access_token" := JStr "a1"]})))) "a1").
    reflexivity.
  - apply (proj2 (proj2 (token_exchange_requests (scripted []) modern_client
                    (initial JUndefined)))).
    reflexivity.
Defined.

(** C1.  On a legacy client [authorize({username, password})] posts the
    form body to [/api/v1/auth/login], then posts to [/api/v1/admin/token]
    with the first response's [authToken] as [X-Auth-Token], and stores the
    first response's data merged with the second response's data under
    [apiToken]: two requests, in that order, and [token()] then returns a
    bundle with both keys.  If either request is rejected the classified
    error is thrown and neither the token store nor the event log
    changes. *)
Theorem legacy_authorize
    (transport : list Axios.config -> Axios.config -> Axios.settled)
    (rc_login : jsval -> list jsval -> jsval + jsval)
    (this : client) (creds : jsval) (rest : list jsval) (u p : string) (st : state) :
  isLegacy this = true ->
  prop creds "username" = JStr u ->
  prop creds "password" = JStr p ->
  let req1 := login_request this u p in
  let run := authorize transport rc_login this (creds :: rest) st in
  (forall (res1 res2 a : jsval) (lr : loc) (fr : gmap string jsval),
      transport (sent st) req1 = Axios.Fulfilled res1 ->
      prop res1 "data" = JObj lr fr ->
      fr !! "authToken" = Some a -> truthy a = true ->
      transport (sent st ++ [req1]) (exchange_request this a) = Axios.Fulfilled res2 ->
      nullish res2 = false ->
      fst run = Return JUndefined
      /\ sent (snd run) = sent st ++ [req1; exchange_request this a]
      /\ fst (token [] (snd run))
         = Return (JObj (next_loc st) (<["apiToken" := prop res2 "data"]> fr))
      /\ prop (_token (snd run)) "authToken" = a
      /\ prop (_token (snd run)) "apiToken" = prop res2 "data")
  /\ (forall e : jsval,
        transport (sent st) req1 = Axios.Rejected e ->
        fst run = Throw (classified e)
        /\ sent (snd run) = sent st ++ [req1]
        /\ _token (snd run) = _token st
        /\ emitted (snd run) = emitted st)
  /\ (forall (res1 r e : jsval),
        transport (sent st) req1 = Axios.Fulfilled res1 ->
        nullish res1 = false -> prop res1 "data" = r -> nullish r = false ->
        transport (sent st ++ [req1])
                  (exchange_request this (js_or (prop r "authToken") (JStr "")))
          = Axios.Rejected e ->
        fst run = Throw (classified e)
        /\ sent (snd run)
           = sent st ++ [req1; exchange_request this (js_or (prop r "authToken") (JStr ""))]
        /\ _token (snd run) = _token st
        /\ emitted (snd run) = emitted st).
Proof.
  intros Hleg Hu Hp req1 run.
  assert (nullish creds = false) as Hc
      by (apply (prop_not_nullish _ "username"); congruence).
  assert (run =
          (getLegacyToken transport this (creds :: rest) ≫= λ _, mret JUndefined)
            st) as Hrun.
  { unfold run, authorize, legacyAuthorize. rewrite Hleg. msimpl.
    by destruct (getLegacyToken transport this (creds :: rest) st) as [[]]. }
  assert (forall k : jsval -> M jsval,
            (getLegacyToken transport this (creds :: rest) ≫= k) st =
            ((axios_request transport req1 ≫= λ res,
              get_prop res "data" ≫= λ r,
              get_prop r "authToken" ≫= λ authToken,
              axios_request transport
                (exchange_request this (js_or authToken (JStr ""))) ≫= λ res1,
              get_prop res1 "data" ≫= λ r1,
              new_object (<["apiToken" := r1]> (spread r)) ≫= λ bundle,
              token [bundle] ≫= λ _, mret JUndefined) ≫= k) st) as Hstart.
  { intros k. unfold getLegacyToken. cbn [hd]. msimpl.
    rewrite !get_prop_ok by exact Hc. rewrite Hu, Hp. reflexivity. }
  rewrite Hrun, Hstart. clear Hrun Hstart run. msimpl.
  split; [|split].
  - intros res1 res2 a lr fr H1 Hd Ha Hta H2 Hn2.
    assert (nullish res1 = false) as Hn1
        by (apply (prop_not_nullish _ "data"); congruence).
    rewrite (axios_request_fulfilled _ _ _ _ H1).
    rewrite (get_prop_ok _ _ _ Hn1), Hd.
    rewrite get_prop_ok by reflexivity. cbn [prop]. rewrite Ha. cbn [from_option id].
    unfold js_or. rewrite Hta.
    rewrite (axios_request_fulfilled _ (exchange_request this a) _ res2) by exact H2.
    rewrite (get_prop_ok _ _ _ Hn2). cbn [spread]. rewrite token_set.
    cbn [fst snd sent _token prop]. rewrite <- app_assoc.
    repeat split.
    + rewrite lookup_insert_ne by discriminate. by rewrite Ha.
    + by rewrite lookup_insert_eq.
  - intros e H1. rewrite (axios_request_rejected _ _ _ _ H1), classify_classified.
    auto.
  - intros res1 r e H1 Hn1 Hd Hnr H2.
    rewrite (axios_request_fulfilled _ _ _ _ H1).
    rewrite (get_prop_ok _ _ _ Hn1), Hd, (get_prop_ok _ _ _ Hnr).
    rewrite (axios_request_rejected _ _ _ e) by exact H2.
    rewrite classify_classified. cbn [fst snd sent _token emitted].
    rewrite <- app_assoc. auto.
Qed.

Lemma legacy_authorize_witness :
  let run := authorize
               (scripted [Axios.Fulfilled (response_with 20 (JObj 21 {["authToken" := JStr "A"]}));
                          Axios.Fulfilled (response_with 22 (JStr "T"))])
               (fun _ _ => inr JUndefined) legacy_client
               [JObj 1 {["username" := JStr "u"; "password" := JStr "p"]}]
               (initial JUndefined) in
  fst run = Return JUndefined
  /\ sent (snd run) = [] ++ [login_request legacy_client "u" "p";
                             exchange_request legacy_client (JStr "A")]
  /\ fst (token [] (snd run))
     = Return (JObj 0 (<["apiToken" := JStr "T"]> {["authToken" := JStr "A"]}))
  /\ prop (_token (snd run)) "authToken" = JStr "A"
  /\ prop (_token (snd run)) "apiToken" = JStr "T".
Proof.
  exact (proj1 (legacy_authorize
                  (scripted [Axios.Fulfilled (response_with 20 (JObj 21 {["authToken" := JStr "A"]}));
                             Axios.Fulfilled (response_with 22 (JStr "T"))])
                  (fun _ _ => inr JUndefined) legacy_client
                  (JObj 1 {["username" := JStr "u"; "password" := JStr "p"]}) []
                  "u" "p" (initial JUndefined) eq_refl eq_refl eq_refl)
           (response_with 20 (JObj 21 {["authToken" := JStr "A"]}))
           (response_with 22 (JStr "T")) (JStr "A") 21 {["authToken" := JStr "A"]}
           eq_refl eq_refl eq_refl eq_refl eq_refl eq_refl).
Defined.

(** Without a stored bundle [revokeLegacyToken] does nothing. *)
Lemma revokeLegacyToken_no_bundle
    (transport : list Axios.config -> Axios.config -> Axios.settled)
    (version : jsval) (this : client) (st : state) :
  truthy (_token st) = false ->
  revokeLegacyToken transport version this st = (Return JUndefined, st).
Proof. intros H. unfold revokeLegacyToken. by rewrite H. Qed.

(** With a stored bundle it makes one DELETE request. *)
Lemma revokeLegacyToken_one_request
    (transport : list Axios.config -> Axios.config -> Axios.settled)
    (version : jsval) (this : client) (st : state) :
  truthy (_token st) = true ->
  exists url : string,
    calls (snd (revokeLegacyToken transport version this st))
    = calls st ++ [(Some "delete", url)].
Proof.
  intros H. unfold revokeLegacyToken, delete, request, axios_request, calls.
  rewrite H. msimpl. eexists.
  match goal with |- context [transport ?h ?c] => destruct (transport h c) as [res|e] end.
  - msimpl. rewrite map_app. reflexivity.
  - rewrite classify_classified. cbn [snd sent]. rewrite map_app. reflexivity.
Qed.

(** C8.  The URL of that request is not
    [{server}/api/v1/admin/token/{apiToken}]: the template carries a line
    break, four spaces and an [X] after the token, which the URL library
    strips (the line break) and percent-encodes (the spaces) into the path;
    with the default API prefix the path is prefixed as well. *)
Theorem revokeLegacyToken_url :
  calls (snd (revokeLegacyToken (scripted []) JNull legacy_client_bare
                (with_token (JObj 0 {["apiToken" := JStr "abc"]}))))
  = [(Some "delete", "https://portal.vacd.biz/api/v1/admin/token/abc%20%20%20%20X")]
  /\ "https://portal.vacd.biz/api/v1/admin/token/abc%20%20%20%20X"
     <> server legacy_client_bare +:+ "/api/v1/admin/token/" +:+ "abc"
  /\ calls (snd (revokeLegacyToken (scripted []) JNull legacy_client
                   (with_token (JObj 0 {["apiToken" := JStr "abc"]}))))
     = [(Some "delete", "https://portal.vacd.biz/voice/api/v1/admin/token/abc%20%20%20%20X")].
Proof.
  split; [|split].
  - vm_compute. reflexivity.
  - vm_compute. discriminate.
  - vm_compute. reflexivity.
Qed.

(** ** URL resolver *)

(** A relative URL made of plain segments that starts with the API prefix
    resolves to the server followed by that path. *)
Lemma resolve_prefixed (this : client) (lead : bool) (segs : list string) :
  is_origin (server this) = true ->
  segs <> [] -> Forall (fun s => plain_segment s = true) segs ->
  Str.startsWith ((if lead then "/" else "") +:+ Str.join "/" segs) (apiPrefix this)
  || Str.startsWith ((if lead then "/" else "") +:+ Str.join "/" segs)
                    ("/" +:+ apiPrefix this) = true ->
  resolve this ((if lead then "/" else "") +:+ Str.join "/" segs)
  = server this +:+ "/" +:+ Str.join "/" segs.
Proof.
  intros Ho Hne Hall Hpre.
  pose proof (plain_joined _ Hne Hall) as HJ.
  pose proof HJ as [_ Hok _ (c & r & Hc & _ & Hs) _ _].
  destruct (origin_facts _ Ho) as (Hurn & Hgp & Hseg & Hbuild).
  set (J := Str.join "/" segs) in *.
  set (url := (if lead then "/" else "") +:+ J) in *.
  assert (URI.parse url = URI.set_path URI.empty_parts url) as Hparse.
  { assert (URI.is_slash c = false) as Hsl.
    { apply path_ok_is_slash; [|done]. rewrite Hc in Hok.
      by apply andb_true_iff in Hok as [? _]. }
    apply parse_relative; unfold url; destruct lead; sapp.
    - cbn [Str.forallb]. by rewrite Hok.
    - done.
    - rewrite Hc. cbn [URI.two_slashes]. by rewrite Hsl, andb_false_r.
    - rewrite Hc. destruct r as [|d r]; [done|].
      cbn [URI.two_slashes]. by rewrite Hsl. }
  assert (URI.segment (URI.parse url) = segs) as Hsegs.
  { rewrite Hparse. unfold url. destruct lead; sapp.
    - by apply (segment_absolute _ _ J).
    - by apply (segment_relative _ _ J). }
  unfold resolve, resolve_uri. rewrite Hpre.
  assert (URI.get_hostname (URI.parse url) = "") as -> by by rewrite Hparse.
  cbn [String.eqb].
  rewrite (joinPaths_plain (URI.parse "") (URI.parse url) segs); try done.
  unfold parseUrl.
  rewrite (joinPaths_plain (URI.parse (server this)) _ segs); try done.
  - unfold URI.path_set_uri, URI.toString. rewrite Hurn, build_path_only.
    fold J. rewrite (proj2 (recodePath_joined _ _ HJ)).
    rewrite Hbuild by done. by sapp.
  - by apply (segment_absolute _ _ J).
  - by rewrite Hgp.
Qed.

Lemma startsWith_refl (s t : string) : Str.startsWith (s +:+ t) s = true.
Proof.
  induction s as [|c s IH]; sapp; [by destruct t|].
  cbn [Str.startsWith]. by rewrite Ascii.eqb_refl, IH.
Qed.

Lemma startsWith_cons (c : ascii) (s p : string) :
  Str.startsWith (String c s) (String c p) = Str.startsWith s p.
Proof. cbn [Str.startsWith]. by rewrite Ascii.eqb_refl. Qed.



(** C9.  Whether a relative URL already carries the prefix is decided on
    the text of the whole path: with the prefix [voice], a path of plain
    segments whose first segment merely begins with [voice], such as
    [voicemail/box], is joined to the server as it is, without [voice/] in
    front, although its first segment is not [voice]. *)
Theorem prefix_test_is_textual (this : client) (suffix : string) (rest : list string) :
  is_origin (server this) = true ->
  apiPrefix this = "voice" ->
  plain_segment ("voice" +:+ suffix) = true ->
  Forall (fun s => plain_segment s = true) rest ->
  forall lead : bool,
    resolve this ((if lead then "/" else "") +:+ Str.join "/" (("voice" +:+ suffix) :: rest))
    = server this +:+ "/" +:+ Str.join "/" (("voice" +:+ suffix) :: rest).
Proof.
  intros Ho Hv Hs Hrest lead. apply resolve_prefixed; try done.
  - by constructor.
  - rewrite Hv.
    assert (Str.startsWith (Str.join "/" (("voice" +:+ suffix) :: rest)) "voice" = true)
      as Hpre.
    { destruct rest as [|y r].
      - apply startsWith_refl.
      - rewrite join_cons, sapp_assoc. apply startsWith_refl. }
    set (J := Str.join "/" (("voice" +:+ suffix) :: rest)) in *.
    destruct lead; sapp.
    + by rewrite startsWith_cons, Hpre, orb_true_r.
    + by rewrite Hpre.
Qed.

Lemma prefix_test_is_textual_witness :
  resolve modern_client "voicemail/box" = "https://engage.ringcentral.com/voicemail/box"
  /\ resolve modern_client "mail/box" = "https://engage.ringcentral.com/voice/mail/box".
Proof.
  split.
  - exact (prefix_test_is_textual modern_client "mail" ["box"]
             eq_refl eq_refl eq_refl
             (List.Forall_cons _ "box" [] eq_refl (List.Forall_nil _)) false).
  - reflexivity.
Defined.




(** ** Further properties of the client *)

Section Runs.
Variable transport : list Axios.config -> Axios.config -> Axios.settled.
Variable version : jsval.
Variable this : client.

(** [request] hands exactly one configuration to the transport and
    returns what comes back, a rejection classified. *)
Lemma request_run (config : Axios.config) (st : state) :
  request transport version this config st =
    (match transport (sent st) (dispatched version this config st) with
     | Axios.Fulfilled res => Return res
     | Axios.Rejected e => Throw (classified e)
     end,
     after_request (dispatched version this config st) st).
Proof.
  unfold request, axios_request, after_request. msimpl.
  destruct (transport _ _) as [res|e]; [reflexivity|].
  by rewrite classify_classified.
Qed.

Lemma session_access_token (st : state) :
  prop (if truthy (session st) then session st else JObj (next_loc st) ∅) "access_token"
  = prop (session st) "access_token".
Proof.
  destruct (session st) as [| |[]|n| |s|]; cbn; try reflexivity.
  - by destruct (n =? 0)%Z.
  - by destruct (String.eqb s "").
Qed.

(** The whole of a token exchange. *)
Lemma getToken_run (refreshToken : jsval) (st : state) :
  getToken transport this refreshToken st =
    let cfg := token_exchange this refreshToken st in
    let n := if truthy refreshToken || truthy (session st)
             then next_loc st else S (next_loc st) in
    match transport (sent st) cfg with
    | Axios.Fulfilled res =>
        if nullish res
        then (Throw (ThrowTypeError "data"),
              mkState (_token st) (emitted st) (sent st ++ [cfg]) (session st) n)
        else (Return JUndefined,
              mkState (prop res "data")
                      (emitted st ++ notification (_token st) (prop res "data"))
                      (sent st ++ [cfg]) (session st) n)
    | Axios.Rejected e =>
        (Throw (classified e),
         mkState (_token st) (emitted st) (sent st ++ [cfg]) (session st) n)
    end.
Proof.
  unfold getToken, token_exchange, access_token_request, form_headers, notification.
  cbv zeta.
  destruct (truthy refreshToken) eqn:Hr; msimpl.
  - unfold axios_request. msimpl.
    match goal with |- context [transport ?h ?c] => destruct (transport h c) as [res|e] end.
    + msimpl. unfold get_prop. destruct (nullish res); msimpl; [reflexivity|].
      rewrite token_set. reflexivity.
    + by rewrite classify_classified.
  - pose proof (session_access_token st) as Hs.
    destruct (truthy (session st)) eqn:Ht; msimpl.
    + rewrite get_prop_ok by (destruct (session st); cbn in *; congruence).
      unfold axios_request. msimpl.
      match goal with |- context [transport ?h ?c] => destruct (transport h c) as [res|e] end.
      * msimpl. unfold get_prop. destruct (nullish res); msimpl; [reflexivity|].
        rewrite token_set. reflexivity.
      * by rewrite classify_classified.
    + rewrite get_prop_ok by reflexivity. rewrite Hs.
      unfold axios_request. msimpl.
      match goal with |- context [transport ?h ?c] => destruct (transport h c) as [res|e] end.
      * msimpl. unfold get_prop. destruct (nullish res); msimpl; [reflexivity|].
        rewrite token_set. reflexivity.
      * by rewrite classify_classified.
Qed.

(** The whole of a legacy login with credentials that can be read. *)
Lemma getLegacyToken_run (creds : jsval) (rest : list jsval) (st : state) :
  nullish creds = false ->
  getLegacyToken transport this (creds :: rest) st =
    let req1 := login_request_of this creds in
    match transport (sent st) req1 with
    | Axios.Rejected e => (Throw (classified e), after_request req1 st)
    | Axios.Fulfilled res1 =>
        if nullish res1 then (Throw (ThrowTypeError "data"), after_request req1 st)
        else if nullish (prop res1 "data")
        then (Throw (ThrowTypeError "authToken"), after_request req1 st)
        else
          let r := prop res1 "data" in
          let req2 := exchange_request this (js_or (prop r "authToken") (JStr "")) in
          match transport (sent st ++ [req1]) req2 with
          | Axios.Rejected e =>
              (Throw (classified e), after_request req2 (after_request req1 st))
          | Axios.Fulfilled res2 =>
              if nullish res2
              then (Throw (ThrowTypeError "data"),
                    after_request req2 (after_request req1 st))
              else
                let bundle := legacy_bundle (next_loc st) r (prop res2 "data") in
                (Return JUndefined,
                 mkState bundle (emitted st ++ notification (_token st) bundle)
                         ((sent st ++ [req1]) ++ [req2]) (session st)
                         (S (next_loc st)))
          end
    end.
Proof.
  intros Hc. unfold getLegacyToken, login_request_of, login_request, form_headers.
  cbn [hd]. cbv zeta. msimpl. rewrite !get_prop_ok by exact Hc.
  unfold axios_request at 1. msimpl.
  match goal with |- context [transport ?h ?c] => destruct (transport h c) as [res1|e] end.
  2:{ by rewrite classify_classified. }
  msimpl. unfold get_prop at 1. destruct (nullish res1); msimpl; [reflexivity|].
  unfold get_prop at 1. destruct (nullish (prop res1 "data")); msimpl; [reflexivity|].
  unfold axios_request, exchange_request. msimpl.
  match goal with |- context [transport ?h ?c] => destruct (transport h c) as [res2|e] end.
  2:{ by rewrite classify_classified. }
  msimpl. unfold get_prop. destruct (nullish res2); msimpl; [reflexivity|].
  rewrite token_set. reflexivity.
Qed.

End Runs.

(** X1.  ServerMode is Legacy exactly when the configured server is, to
    the letter, one of the two legacy servers: a legacy server followed by
    anything more, a trailing slash for one, makes a Modern client. *)
Theorem server_mode_exact (o : options) :
  (mode (constructor o) = Legacy <-> In (default SERVER (opt_server o)) LEGACY_SERVERS)
  /\ (forall s suffix : string,
        In s LEGACY_SERVERS -> suffix <> "" ->
        mode (constructor (mkOptions (opt_clientId o) (opt_clientSecret o)
                                     (Some (s +:+ suffix)) (opt_rcServer o)
                                     (opt_apiPrefix o)))
        = Modern).
Proof.
  split; [apply constructor_mode|].
  intros s suffix Hin Hne.
  change (mode (constructor _))
    with (if isLegacyServer (s +:+ suffix) then Legacy else Modern).
  assert (isLegacyServer (s +:+ suffix) = false) as ->; [|done].
  unfold isLegacyServer, LEGACY_SERVERS in *. cbn [existsb].
  assert (forall t, In t ["https://portal.vacd.biz"; "https://portal.virtualacd.biz"] ->
                    String.eqb (s +:+ suffix) t = false) as Hneq.
  { intros t Ht. apply String.eqb_neq. intros E.
    cbn [In] in Hin, Ht.
    destruct Hin as [<-|[<-|[]]], Ht as [<-|[<-|[]]].
    - rewrite <- (sapp_nil_r "https://portal.vacd.biz") in E at 2.
      by apply (inj (String.app _)) in E.
    - repeat rewrite sapp_cons in E. congruence.
    - repeat rewrite sapp_cons in E. congruence.
    - rewrite <- (sapp_nil_r "https://portal.virtualacd.biz") in E at 2.
      by apply (inj (String.app _)) in E. }
  rewrite !Hneq by (cbn; auto). reflexivity.
Qed.

Lemma server_mode_exact_witness :
  mode (constructor (mkOptions JNull JNull (Some ("https://portal.vacd.biz" +:+ "/"))
                               None None)) = Modern.
Proof.
  apply (proj2 (server_mode_exact (mkOptions JNull JNull None None None))
           "https://portal.vacd.biz" "/").
  - cbn. auto.
  - discriminate.
Defined.

(** X2.  The getter returns what the last setter call stored, whatever was
    set before, and reading never changes the client. *)
Theorem token_round_trip (vs : list jsval) (st : state) :
  fst ((set_tokens vs ≫= λ _, token []) st) = Return (List.last vs (_token st))
  /\ snd (token [] st) = st.
Proof.
  split; [|reflexivity].
  change ((set_tokens vs ≫= λ _, token []) st)
    with (match set_tokens vs st with
          | (Return a, st') => token [] st'
          | (Throw e, st') => (Throw e, st')
          end).
  by rewrite set_tokens_run.
Qed.

Lemma patchHeaders_auth
    (version : jsval) (this : client) (headers : option (gmap string jsval))
    (st : state) (k : string) :
  default ∅ headers !! k = None ->
  k <> "RC-User-Agent" -> k <> "X-User-Agent" ->
  _patchHeaders version this headers st !! k = authHeaders this st !! k.
Proof.
  intros Hk Hrc Hx. unfold _patchHeaders. rewrite lookup_union, Hk.
  rewrite (@left_id _ eq None union option_union_left_id).
  by rewrite !lookup_insert_ne.
Qed.

(** X3.  Header precedence: a header the caller supplies is passed on as
    it is; otherwise [RC-User-Agent] and [X-User-Agent] are the library's
    user agent, and any other name is looked up in the auth headers. *)
Theorem patch_headers_precedence
    (version : jsval) (this : client) (headers : option (gmap string jsval))
    (st : state) (k : string) :
  _patchHeaders version this headers st !! k =
    match default ∅ headers !! k with
    | Some v => Some v
    | None =>
        if bool_decide (k = "RC-User-Agent" \/ k = "X-User-Agent")
        then Some (user_agent version)
        else authHeaders this st !! k
    end.
Proof.
  unfold _patchHeaders, user_agent. rewrite lookup_union.
  destruct (default ∅ headers !! k) as [v|] eqn:E.
  - match goal with |- Some v ∪ ?y = _ => by destruct y end.
  - rewrite (@left_id _ eq None union option_union_left_id). rewrite lookup_insert.
    destruct (decide ("RC-User-Agent" = k)) as [<-|Hrc]; [reflexivity|].
    rewrite lookup_insert.
    destruct (decide ("X-User-Agent" = k)) as [<-|Hx]; [reflexivity|].
    rewrite bool_decide_eq_false_2; [reflexivity|].
    intros [->| ->]; congruence.
Qed.




(** X6.  A rejection whose [response] is present but falsy is rethrown as
    it is, like one without the field; a rejection with [undefined] or
    [null] makes the wrapper itself fail on reading [response]. *)
Theorem falsy_response_rethrown
    (transport : list Axios.config -> Axios.config -> Axios.settled)
    (version : jsval) (this : client) (config : Axios.config) (st : state) (e : jsval) :
  transport (sent st) (dispatched version this config st) = Axios.Rejected e ->
  (nullish e = false -> truthy (prop e "response") = false ->
   fst (request transport version this config st) = Throw (ThrowValue e))
  /\ (nullish e = true ->
      fst (request transport version this config st) = Throw (ThrowTypeError "response")).
Proof.
  intros H. rewrite request_run, H. cbn [fst]. unfold classified.
  split.
  - by intros -> ->.
  - by intros ->.
Qed.

Lemma falsy_response_rethrown_witness :
  fst (request (rejecting (JObj 3 {["response" := JNull]})) JNull modern_client
               Axios.empty (initial JUndefined))
  = Throw (ThrowValue (JObj 3 {["response" := JNull]}))
  /\ fst (request (rejecting JUndefined) JNull modern_client
                  Axios.empty (initial JUndefined))
     = Throw (ThrowTypeError "response").
Proof.
  split.
  - apply (proj1 (falsy_response_rethrown (rejecting (JObj 3 {["response" := JNull]}))
                    JNull modern_client Axios.empty (initial JUndefined) _ eq_refl));
      reflexivity.
  - apply (proj2 (falsy_response_rethrown (rejecting JUndefined)
                    JNull modern_client Axios.empty (initial JUndefined) _ eq_refl)).
    reflexivity.
Defined.

(** X7.  The token exchange replaces the stored bundle by the response's
    data, and notifies if that differs from what was stored, only when the
    request succeeds; when it is rejected the classified error is thrown
    and the store and the event log stay as they were.  Either way one
    request is made and the SDK's session is left alone. *)
Theorem getToken_outcome
    (transport : list Axios.config -> Axios.config -> Axios.settled)
    (this : client) (refreshToken : jsval) (st : state) :
  let run := getToken transport this refreshToken st in
  let cfg := token_exchange this refreshToken st in
  sent (snd run) = sent st ++ [cfg]
  /\ session (snd run) = session st
  /\ (forall res : jsval,
        transport (sent st) cfg = Axios.Fulfilled res -> nullish res = false ->
        fst run = Return JUndefined
        /\ _token (snd run) = prop res "data"
        /\ emitted (snd run)
           = emitted st ++ notification (_token st) (prop res "data"))
  /\ (forall e : jsval,
        transport (sent st) cfg = Axios.Rejected e ->
        fst run = Throw (classified e)
        /\ _token (snd run) = _token st
        /\ emitted (snd run) = emitted st).
Proof.
  cbv zeta. rewrite getToken_run. cbv zeta.
  destruct (transport _ _) as [res|e] eqn:E.
  - destruct (nullish res) eqn:Hn; cbn [fst snd sent session _token emitted].
    + split; [done|]. split; [done|]. split; [|done].
      intros ? [= <-]. congruence.
    + split; [done|]. split; [done|]. split; [|done].
      by intros ? [= <-].
  - cbn [fst snd sent session _token emitted].
    split; [done|]. split; [done|]. split; [done|].
    by intros ? [= <-].
Qed.

Lemma getToken_outcome_witness :
  _token (snd (getToken (scripted [Axios.Fulfilled
                                     (response_with 5 (JObj 6 {["accessToken" := JStr "t"]}))])
                        modern_client JUndefined (initial JUndefined)))
  = JObj 6 {["accessToken" := JStr "t"]}
  /\ _token (snd (getToken (rejecting unauthorized) modern_client JUndefined
                           (with_token (JStr "old"))))
     = JStr "old".
Proof.
  split.
  - apply (proj1 (proj2 (proj2 (getToken_outcome
             (scripted [Axios.Fulfilled
                          (response_with 5 (JObj 6 {["accessToken" := JStr "t"]}))])
             modern_client JUndefined (initial JUndefined))))
             (response_with 5 (JObj 6 {["accessToken" := JStr "t"]})) eq_refl eq_refl).
  - apply (proj2 (proj2 (proj2 (getToken_outcome (rejecting unauthorized) modern_client
             JUndefined (with_token (JStr "old"))))) unauthorized eq_refl).
Defined.

(** X8.  [refresh()] on a stored bundle without a usable [refreshToken]
    (absent, empty or otherwise falsy) does not fail: it falls back to the
    exchange of the SDK session's access token. *)
Theorem refresh_falls_back
    (transport : list Axios.config -> Axios.config -> Axios.settled)
    (this : client) (st : state) :
  nullish (_token st) = false ->
  truthy (prop (_token st) "refreshToken") = false ->
  sent (snd (refresh transport this st))
  = sent st ++ [access_token_request this
                  ("rcAccessToken="
                   +:+ to_string (js_or (prop (session st) "access_token") (JStr ""))
                   +:+ "&rcTokenType=Bearer")].
Proof.
  intros Hn Hr. unfold refresh. msimpl. rewrite get_prop_ok by done.
  rewrite getToken_run. cbv zeta. unfold token_exchange. rewrite Hr.
  destruct (transport _ _) as [res|e]; [destruct (nullish res)|]; reflexivity.
Qed.

Lemma refresh_falls_back_witness :
  sent (snd (refresh (scripted []) modern_client
               (mkState (JObj 0 {["accessToken" := JStr "t"]}) [] []
                        (JObj 1 {["access_token" := JStr "s"]}) 2)))
  = [access_token_request modern_client "rcAccessToken=s&rcTokenType=Bearer"].
Proof.
  exact (refresh_falls_back (scripted []) modern_client
           (mkState (JObj 0 {["accessToken" := JStr "t"]}) [] []
                    (JObj 1 {["access_token" := JStr "s"]}) 2) eq_refl eq_refl).
Defined.

(** X9.  On a Modern client [authorize] first logs in with the SDK.  A
    failed login is thrown as it is, unclassified, and nothing else
    happens; after a successful one the new session's access token is
    exchanged in a single request. *)
Theorem modern_authorize
    (transport : list Axios.config -> Axios.config -> Axios.settled)
    (rc_login : jsval -> list jsval -> jsval + jsval)
    (this : client) (args : list jsval) (st : state) :
  isLegacy this = false ->
  (forall e : jsval,
      rc_login (session st) args = inr e ->
      authorize transport rc_login this args st = (Throw (ThrowValue e), st))
  /\ (forall session' : jsval,
        rc_login (session st) args = inl session' ->
        sent (snd (authorize transport rc_login this args st))
        = sent st ++ [access_token_request this
                        ("rcAccessToken="
                         +:+ to_string (js_or (prop session' "access_token") (JStr ""))
                         +:+ "&rcTokenType=Bearer")]
        /\ session (snd (authorize transport rc_login this args st)) = session').
Proof.
  intros Hm. unfold authorize. rewrite Hm. msimpl. split.
  - by intros e ->.
  - intros session' ->. msimpl. rewrite getToken_run. cbv zeta.
    unfold token_exchange. cbn [truthy session sent].
    destruct (transport _ _) as [res|e]; [destruct (nullish res)|]; done.
Qed.

Lemma modern_authorize_witness :
  authorize (scripted []) (fun _ _ => inr (JStr "denied")) modern_client []
            (initial JUndefined)
  = (Throw (ThrowValue (JStr "denied")), initial JUndefined)
  /\ sent (snd (authorize (scripted [])
                  (fun _ _ => inl (JObj 1 {["access_token" := JStr "s"]}))
                  modern_client [] (initial JUndefined)))
     = [] ++ [access_token_request modern_client "rcAccessToken=s&rcTokenType=Bearer"].
Proof.
  split.
  - apply (proj1 (modern_authorize (scripted []) (fun _ _ => inr (JStr "denied"))
                    modern_client [] (initial JUndefined) eq_refl)).
    reflexivity.
  - exact (proj1 (proj2 (modern_authorize (scripted [])
                    (fun _ _ => inl (JObj 1 {["access_token" := JStr "s"]}))
                    modern_client [] (initial JUndefined) eq_refl)
             (JObj 1 {["access_token" := JStr "s"]}) eq_refl)).
Defined.

Section Legacy.
Variable transport : list Axios.config -> Axios.config -> Axios.settled.
Variable rc_login : jsval -> list jsval -> jsval + jsval.
Variable this : client.
Hypothesis legacy : isLegacy this = true.

Lemma authorize_legacy (args : list jsval) (st : state) :
  authorize transport rc_login this args st =
    match getLegacyToken transport this args st with
    | (Return _, st') => (Return JUndefined, st')
    | (Throw e, st') => (Throw e, st')
    end.
Proof.
  unfold authorize, legacyAuthorize. rewrite legacy. msimpl.
  by destruct (getLegacyToken transport this args st) as [[]].
Qed.

End Legacy.

(** X10.  How a legacy login fails short of a rejected request.  Called
    without credentials it throws before any request.  When the login
    response has no data it throws after that one request, without
    asking for a token.  In both cases nothing is stored. *)
Theorem legacy_login_failures
    (transport : list Axios.config -> Axios.config -> Axios.settled)
    (rc_login : jsval -> list jsval -> jsval + jsval)
    (this : client) (args : list jsval) (st : state) :
  isLegacy this = true ->
  (nullish (hd JUndefined args) = true ->
   authorize transport rc_login this args st = (Throw (ThrowTypeError "username"), st))
  /\ (forall (creds res1 : jsval) (rest : list jsval),
        args = creds :: rest -> nullish creds = false ->
        transport (sent st) (login_request_of this creds) = Axios.Fulfilled res1 ->
        nullish res1 = false -> nullish (prop res1 "data") = true ->
        authorize transport rc_login this args st
        = (Throw (ThrowTypeError "authToken"), after_request (login_request_of this creds) st)).
Proof.
  intros Hl. rewrite (authorize_legacy _ _ _ Hl). split.
  - intros Hn. unfold getLegacyToken, get_prop. msimpl. by rewrite Hn.
  - intros creds res1 rest -> Hc H1 Hn1 Hd.
    rewrite getLegacyToken_run by done. cbv zeta. by rewrite H1, Hn1, Hd.
Qed.

Lemma legacy_login_failures_witness :
  authorize (scripted []) (fun _ _ => inr JUndefined) legacy_client [] (initial JUndefined)
  = (Throw (ThrowTypeError "username"), initial JUndefined)
  /\ authorize (scripted [Axios.Fulfilled (response_with 5 JNull)])
               (fun _ _ => inr JUndefined) legacy_client [JObj 1 ∅] (initial JUndefined)
     = (Throw (ThrowTypeError "authToken"),
        after_request (login_request_of legacy_client (JObj 1 ∅)) (initial JUndefined)).
Proof.
  split.
  - apply (proj1 (legacy_login_failures (scripted []) (fun _ _ => inr JUndefined)
                    legacy_client [] (initial JUndefined) eq_refl)).
    reflexivity.
  - apply (proj2 (legacy_login_failures (scripted [Axios.Fulfilled (response_with 5 JNull)])
                    (fun _ _ => inr JUndefined) legacy_client [JObj 1 ∅]
                    (initial JUndefined) eq_refl)
             (JObj 1 ∅) (response_with 5 JNull) []); reflexivity.
Defined.

(** X11.  A legacy login whose two requests succeed posts
    [username=..&password=..] built from the credentials as they print,
    sends [X-Auth-Token] empty when the login data has no usable
    [authToken], and raises exactly one [tokenChanged] carrying the bundle
    it stores, the bundle being a new object. *)
Theorem legacy_login_success
    (transport : list Axios.config -> Axios.config -> Axios.settled)
    (rc_login : jsval -> list jsval -> jsval + jsval)
    (this : client) (creds res1 res2 : jsval) (rest : list jsval) (st : state) :
  isLegacy this = true ->
  nullish creds = false ->
  is_fresh (next_loc st) (_token st) = true ->
  transport (sent st) (login_request_of this creds) = Axios.Fulfilled res1 ->
  nullish res1 = false -> nullish (prop res1 "data") = false ->
  transport (sent st ++ [login_request_of this creds])
            (exchange_request this (js_or (prop (prop res1 "data") "authToken") (JStr "")))
    = Axios.Fulfilled res2 ->
  nullish res2 = false ->
  let run := authorize transport rc_login this (creds :: rest) st in
  let bundle := legacy_bundle (next_loc st) (prop res1 "data") (prop res2 "data") in
  fst run = Return JUndefined
  /\ _token (snd run) = bundle
  /\ emitted (snd run) = emitted st ++ [("tokenChanged", bundle)]
  /\ (truthy (prop (prop res1 "data") "authToken") = false ->
      List.last (sent (snd run)) Axios.empty = exchange_request this (JStr "")).
Proof.
  intros Hl Hc Hf H1 Hn1 Hd H2 Hn2. cbv zeta.
  rewrite (authorize_legacy _ _ _ Hl), getLegacyToken_run by done. cbv zeta.
  rewrite H1, Hn1, Hd, H2, Hn2. cbn [fst snd _token emitted sent].
  repeat split.
  - f_equal. unfold notification, legacy_bundle.
    destruct (_token st) as [| | | | | |l f]; try reflexivity.
    cbn in *. apply negb_true_iff in Hf. by rewrite Hf.
  - intros Ht. rewrite last_last. unfold js_or. by rewrite Ht.
Qed.

Lemma legacy_login_success_witness :
  emitted (snd (authorize
                  (scripted [Axios.Fulfilled (response_with 20 (JObj 21 ∅));
                             Axios.Fulfilled (response_with 22 (JStr "T"))])
                  (fun _ _ => inr JUndefined) legacy_client [JObj 1 ∅] (initial JUndefined)))
  = [] ++ [("tokenChanged", legacy_bundle 0 (JObj 21 ∅) (JStr "T"))].
Proof.
  apply (legacy_login_success
           (scripted [Axios.Fulfilled (response_with 20 (JObj 21 ∅));
                      Axios.Fulfilled (response_with 22 (JStr "T"))])
           (fun _ _ => inr JUndefined) legacy_client (JObj 1 ∅)
           (response_with 20 (JObj 21 ∅)) (response_with 22 (JStr "T")) []
           (initial JUndefined)); reflexivity.
Defined.


(** X13.  After a successful token exchange whose data carries the string
    [accessToken], a Modern client sends [Authorization: Bearer <token>] on
    every request whose caller gives no [Authorization] header. *)
Theorem bearer_after_exchange
    (transport : list Axios.config -> Axios.config -> Axios.settled)
    (version : jsval) (this : client) (refreshToken res : jsval) (t : string)
    (st : state) (config : Axios.config) :
  isLegacy this = false ->
  transport (sent st) (token_exchange this refreshToken st) = Axios.Fulfilled res ->
  prop (prop res "data") "accessToken" = JStr t ->
  default ∅ (Axios.headers config) !! "Authorization" = None ->
  Axios.headers (dispatched version this config
                            (snd (getToken transport this refreshToken st)))
    ≫= (.!! "Authorization")
  = Some (JStr ("Bearer " +:+ t)).
Proof.
  intros Hm H Ht Hc.
  assert (nullish (prop res "data") = false) as Hd
      by (apply (prop_not_nullish _ "accessToken"); congruence).
  assert (nullish res = false) as Hn.
  { apply (prop_not_nullish _ "data"). intros E. by rewrite E in Hd. }
  rewrite getToken_run. cbv zeta. rewrite H, Hn. cbn [snd dispatched Axios.headers].
  cbn [mbind option_bind]. rewrite (patchHeaders_auth _ _ _ _ _ Hc) by discriminate.
  unfold authHeaders, _bearerAuthorizationHeader. rewrite Hm. cbn [_token].
  assert (truthy (prop res "data") = true) as ->.
  { destruct (prop res "data"); try discriminate; reflexivity. }
  by rewrite Ht, lookup_singleton_eq.
Qed.

Lemma bearer_after_exchange_witness :
  Axios.headers
    (dispatched JNull modern_client Axios.empty
       (snd (getToken (scripted [Axios.Fulfilled
                                   (response_with 5 (JObj 6 {["accessToken" := JStr "t"]}))])
                      modern_client JUndefined (initial JUndefined))))
    ≫= (.!! "Authorization")
  = Some (JStr ("Bearer " +:+ "t")).
Proof.
  exact (bearer_after_exchange
           (scripted [Axios.Fulfilled (response_with 5 (JObj 6 {["accessToken" := JStr "t"]}))])
           JNull modern_client JUndefined
           (response_with 5 (JObj 6 {["accessToken" := JStr "t"]})) "t"
           (initial JUndefined) Axios.empty eq_refl eq_refl eq_refl eq_refl).
Defined.

(** X14.  After a successful legacy login the client sends, as
    [X-Auth-Token], the data of the token response as a whole (what is
    stored under [apiToken]), on every request whose caller gives no such
    header. *)
Theorem auth_token_after_login
    (transport : list Axios.config -> Axios.config -> Axios.settled)
    (rc_login : jsval -> list jsval -> jsval + jsval)
    (version : jsval) (this : client) (creds res1 res2 : jsval) (rest : list jsval)
    (st : state) (config : Axios.config) :
  isLegacy this = true ->
  nullish creds = false ->
  transport (sent st) (login_request_of this creds) = Axios.Fulfilled res1 ->
  nullish res1 = false -> nullish (prop res1 "data") = false ->
  transport (sent st ++ [login_request_of this creds])
            (exchange_request this (js_or (prop (prop res1 "data") "authToken") (JStr "")))
    = Axios.Fulfilled res2 ->
  nullish res2 = false ->
  default ∅ (Axios.headers config) !! "X-Auth-Token" = None ->
  Axios.headers (dispatched version this config
                            (snd (authorize transport rc_login this (creds :: rest) st)))
    ≫= (.!! "X-Auth-Token")
  = Some (prop res2 "data").
Proof.
  intros Hl Hc H1 Hn1 Hd H2 Hn2 Hh.
  rewrite (authorize_legacy _ _ _ Hl), getLegacyToken_run by done. cbv zeta.
  rewrite H1, Hn1, Hd, H2, Hn2. cbn [snd dispatched Axios.headers].
  cbn [mbind option_bind]. rewrite (patchHeaders_auth _ _ _ _ _ Hh) by discriminate.
  unfold authHeaders, _legacyHeader, legacy_bundle. rewrite Hl. cbn [_token truthy prop].
  by rewrite lookup_insert_eq, lookup_singleton_eq.
Qed.

Lemma auth_token_after_login_witness :
  Axios.headers
    (dispatched JNull legacy_client Axios.empty
       (snd (authorize
               (scripted [Axios.Fulfilled (response_with 20 (JObj 21 {["authToken" := JStr "A"]}));
                          Axios.Fulfilled (response_with 22 (JStr "T"))])
               (fun _ _ => inr JUndefined) legacy_client
               [JObj 1 {["username" := JStr "u"; "password" := JStr "p"]}]
               (initial JUndefined))))
    ≫= (.!! "X-Auth-Token")
  = Some (prop (response_with 22 (JStr "T")) "data").
Proof.
  exact (auth_token_after_login
           (scripted [Axios.Fulfilled (response_with 20 (JObj 21 {["authToken" := JStr "A"]}));
                      Axios.Fulfilled (response_with 22 (JStr "T"))])
           (fun _ _ => inr JUndefined) JNull legacy_client
           (JObj 1 {["username" := JStr "u"; "password" := JStr "p"]})
           (response_with 20 (JObj 21 {["authToken" := JStr "A"]}))
           (response_with 22 (JStr "T")) [] (initial JUndefined) Axios.empty
           eq_refl eq_refl eq_refl eq_refl eq_refl eq_refl eq_refl eq_refl).
Defined.

(** ** Further properties of the URL resolver *)

Lemma join_app (a b : list string) :
  a <> [] -> b <> [] ->
  Str.join "/" (a ++ b) = Str.join "/" a +:+ "/" +:+ Str.join "/" b.
Proof.
  intros Ha Hb. induction a as [|x [|y a] IH]; [done| |].
  - destruct b as [|z b]; [done|]. reflexivity.
  - change ((x :: y :: a) ++ b) with (x :: (y :: a) ++ b).
    change ((y :: a) ++ b) with (y :: a ++ b) at 1.
    rewrite join_cons. change (y :: a ++ b) with ((y :: a) ++ b).
    rewrite IH by done. rewrite join_cons. by rewrite !sapp_assoc.
Qed.

(** Normalisation leaves a relative path of plain segments alone. *)
Lemma normalizePath_relative (p : URI.parts) (segs : list string) (J : string) :
  joined segs J -> URI.urn p = false -> URI.hostname p = None -> URI.path p = J ->
  URI.normalizePath p = p.
Proof.
  intros HJ Hurn Hh Hp. pose proof HJ as [_ _ Hcl (c & r & Hc & Hd & Hs) _ _].
  assert (clean_path (String "/" J) = true) as Hcl'.
  { cbn [clean_path]. rewrite Ascii.eqb_refl, Hcl, Hc, Hd, Hs. done. }
  unfold URI.normalizePath. rewrite Hp, Hurn.
  rewrite (proj1 (recodePath_joined _ _ HJ)).
  assert (Str.is_empty J = false) as -> by by rewrite Hc.
  assert (String.eqb J "/" = false) as ->.
  { apply String.eqb_neq. rewrite Hc. intros [= -> _]. by rewrite Ascii.eqb_refl in Hs. }
  assert (Str.startsWith J "/" = false) as ->.
  { rewrite Hc. cbn [Str.startsWith]. by rewrite (Ascii.eqb_sym "/" c), Hs. }
  cbn [negb]. sapp.
  rewrite !(endsWith_clean _ _ Hcl') by reflexivity. cbn [orb].
  rewrite (resolve_simples_clean _ Hcl') by done.
  rewrite (squeeze_clean _ Hcl') by done.
  rewrite (resolve_parents_clean _ _ Hcl'). cbn [Str.drop].
  assert (URI.leading_parents J = "") as ->.
  { rewrite Hc. cbn [URI.leading_parents].
    destruct c as [[] [] [] [] [] [] [] []]; try reflexivity. discriminate Hd. }
  unfold URI.is_relative. rewrite Hurn, Hh. cbn [negb andb]. sapp.
  destruct p; cbn in *; by subst.
Qed.

(** Joining a relative path of plain segments with another such path. *)
Lemma joinPaths_relative (a b : URI.parts) (sa sb : list string) :
  sa <> [] ->
  Forall (fun s => plain_segment s = true) sa ->
  Forall (fun s => plain_segment s = true) sb ->
  URI.segment a = sa -> URI.segment b = sb ->
  Str.is_empty (URI.get_path a) || Str.startsWith (URI.get_path a) "/" = false ->
  URI.joinPaths [a; b] = URI.set_path URI.empty_parts (Str.join "/" (sa ++ sb)).
Proof.
  intros Hne Ha Hb Hsa Hsb Hfirst.
  assert (sa ++ sb <> []) as Hne' by (destruct sa; done).
  assert (Forall (fun s => plain_segment s = true) (sa ++ sb)) as Hall
      by by apply Forall_app.
  pose proof (plain_joined _ Hne' Hall) as HJ.
  destruct (recodePath_joined _ _ HJ) as [Hr1 _].
  pose proof HJ as [_ _ _ (c & r & Hc & _ & _) _ _].
  unfold URI.joinPaths. cbn [flat_map]. rewrite Hsa, Hsb, app_nil_r, Hfirst.
  destruct sa as [|x sa]; [done|].
  assert (Str.is_empty x = false) as Hx.
  { inversion Ha as [|? ? Hp _]; subst.
    by destruct (plain_segment_inv _ Hp) as (? & ? & -> & _). }
  cbn [app] in *.
  cbn [List.filter length Nat.eqb orb]. rewrite Hx. cbn [negb length Nat.eqb].
  change (URI.parse "") with URI.empty_parts.
  assert (URI.segment_set URI.empty_parts (x :: sa ++ sb)
          = URI.set_path URI.empty_parts (Str.join "/" (x :: sa ++ sb))) as ->.
  { unfold URI.segment_set. rewrite collapse_plain by done. cbn [rev app].
    change (URI.get_path URI.empty_parts) with "".
    change (URI.separator URI.empty_parts) with "/"%char.
    cbn [Str.startsWith].
    rewrite path_set_nonempty, Hr1; [done|done|by rewrite Hc]. }
  by apply (normalizePath_relative _ _ _ HJ).
Qed.

(** X15.  A relative URL of plain segments that does not start with the
    API prefix resolves to the server, then the prefix, then the path. *)
Theorem request_prepends_prefix
    (this : client) (lead : bool) (psegs segs : list string) :
  is_origin (server this) = true ->
  psegs <> [] -> Forall (fun s => plain_segment s = true) psegs ->
  apiPrefix this = Str.join "/" psegs ->
  segs <> [] -> Forall (fun s => plain_segment s = true) segs ->
  Str.startsWith ((if lead then "/" else "") +:+ Str.join "/" segs) (apiPrefix this)
  || Str.startsWith ((if lead then "/" else "") +:+ Str.join "/" segs)
                    ("/" +:+ apiPrefix this) = false ->
  resolve this ((if lead then "/" else "") +:+ Str.join "/" segs)
  = server this +:+ "/" +:+ apiPrefix this +:+ "/" +:+ Str.join "/" segs.
Proof.
  intros Ho Hpne Hpall Hpre Hne Hall Htest.
  pose proof (plain_joined _ Hne Hall) as HJ.
  pose proof (plain_joined _ Hpne Hpall) as HP.
  pose proof HJ as [_ Hok _ (c & r & Hc & _ & Hs) _ _].
  pose proof HP as [_ Hpok _ (pc & pr & Hpc & _ & Hps) _ _].
  destruct (origin_facts _ Ho) as (Hurn & Hgp & Hseg & Hbuild).
  set (J := Str.join "/" segs) in *.
  set (P := Str.join "/" psegs) in *.
  set (url := (if lead then "/" else "") +:+ J) in *.
  assert (forall x s, path_ok x = true -> Ascii.eqb x "/" = false ->
                      URI.two_slashes (String x s) = false) as Hts.
  { intros x s Hx Hxs. apply two_slashes_head. by apply path_ok_is_slash. }
  assert (path_ok c = true /\ path_ok pc = true) as [Hcok Hpcok].
  { rewrite Hc in Hok. rewrite Hpc in Hpok. cbn [Str.forallb] in Hok, Hpok.
    apply andb_true_iff in Hok as [? _]. by apply andb_true_iff in Hpok as [? _]. }
  assert (URI.parse url = URI.set_path URI.empty_parts url) as Hparse.
  { apply parse_relative; unfold url; destruct lead; sapp.
    - cbn [Str.forallb]. by rewrite Hok.
    - done.
    - rewrite Hc. cbn [URI.two_slashes].
      by rewrite (path_ok_is_slash _ Hcok Hs), andb_false_r.
    - rewrite Hc. by apply Hts. }
  assert (URI.parse P = URI.set_path URI.empty_parts P) as Hparse'.
  { apply parse_relative; [done|]. rewrite Hpc. by apply Hts. }
  assert (URI.segment (URI.parse url) = segs) as Hsegs.
  { rewrite Hparse. unfold url. destruct lead; sapp.
    - by apply (segment_absolute _ _ J).
    - by apply (segment_relative _ _ J). }
  assert (URI.segment (URI.parse P) = psegs) as Hpsegs.
  { rewrite Hparse'. by apply (segment_relative _ _ P). }
  assert (psegs ++ segs <> []) as Hne' by (destruct psegs; done).
  assert (Forall (fun s => plain_segment s = true) (psegs ++ segs)) as Hall'
      by by apply Forall_app.
  pose proof (plain_joined _ Hne' Hall') as HJ'.
  unfold resolve, resolve_uri. rewrite Htest, Hpre.
  assert (URI.get_hostname (URI.parse url) = "") as -> by by rewrite Hparse.
  cbn [String.eqb].
  rewrite (joinPaths_relative (URI.parse P) (URI.parse url) psegs segs); try done.
  2:{ rewrite Hparse'. unfold URI.get_path. cbn [URI.path URI.set_path].
      rewrite Hpc. cbn [Str.is_empty Str.startsWith orb].
      by rewrite (Ascii.eqb_sym "/" pc), Hps. }
  unfold parseUrl.
  rewrite (joinPaths_plain (URI.parse (server this)) _ (psegs ++ segs)); try done.
  - unfold URI.path_set_uri, URI.toString. rewrite Hurn, build_path_only.
    rewrite (proj2 (recodePath_joined _ _ HJ')).
    rewrite Hbuild by done. rewrite join_app by done. by sapp.
  - by apply (segment_relative _ _ (Str.join "/" (psegs ++ segs))).
  - by rewrite Hgp.
Qed.

Lemma request_prepends_prefix_witness :
  resolve modern_client ("" +:+ Str.join "/" ["calls"; "42"])
  = "https://engage.ringcentral.com" +:+ "/" +:+ "voice" +:+ "/" +:+ Str.join "/" ["calls"; "42"].
Proof.
  exact (request_prepends_prefix modern_client false ["voice"] ["calls"; "42"]
           eq_refl ltac:(discriminate)
           (List.Forall_cons _ "voice" [] eq_refl (List.Forall_nil _))
           eq_refl ltac:(discriminate)
           (List.Forall_cons _ "calls" ["42"] eq_refl
              (List.Forall_cons _ "42" [] eq_refl (List.Forall_nil _)))
           eq_refl).
Defined.

Lemma drop_while_first (f : ascii -> bool) (s : string) :
  match s with String c _ => f c = false | EmptyString => True end ->
  Str.drop_while f s = s.
Proof. destruct s as [|c s]; cbn; [done|]. by intros ->. Qed.

(** A relative reference with a query and a fragment. *)
Lemma parse_relative_parts (s : string) (qu fr : option string) :
  Str.forallb path_ok s = true -> URI.two_slashes s = false ->
  opt_ok (nonempty_all query_char) qu = true ->
  opt_ok (nonempty_all fragment_char) fr = true ->
  URI.parse (s +:+ query_part qu +:+ fragment_part fr)
  = URI.mkParts None None None None None false s qu fr.
Proof.
  intros Hok H2 Hq Hf. unfold URI.parse.
  assert (Str.forallb (fun c => negb (URI.is_tab_newline c)) (query_part qu) = true
          /\ Str.forallb (is_not "#") (query_part qu) = true) as [HQ1 HQ2].
  { destruct qu as [q|]; [|done]. cbn [query_part opt_ok] in *.
    apply nonempty_all_inv in Hq as (? & ? & _ & _ & Hn). split; all_chars. }
  assert (Str.forallb (fun c => negb (URI.is_tab_newline c)) (fragment_part fr) = true)
    as HF.
  { destruct fr as [f|]; [|done]. cbn [fragment_part opt_ok] in *.
    apply nonempty_all_inv in Hf as (? & ? & _ & _ & Hn).
    sapp. cbn [Str.forallb]. apply andb_true_iff. split; [reflexivity|exact Hn]. }
  rewrite drop_while_first.
  2:{ destruct s as [|c s]; sapp.
      - destruct qu, fr; sapp; done.
      - cbn [Str.forallb] in Hok. apply andb_true_iff in Hok as [Hc _].
        by apply path_ok_not_ws. }
  rewrite filter_id.
  2:{ rewrite !forallb_app, HQ1, HF, !andb_true_r.
      by apply (forallb_impl _ _ _ path_ok_not_tab). }
  rewrite <- sapp_assoc.
  change (fragment_part fr)
    with (match fr with Some x => String "#" "" +:+ x | None => "" end).
  rewrite break_part.
  2:{ by rewrite forallb_app, HQ2, (forallb_impl _ _ _ path_ok_not_hash Hok). }
  change (query_part qu)
    with (match qu with Some x => String "?" "" +:+ x | None => "" end).
  rewrite break_part by by apply (forallb_impl _ _ _ path_ok_not_question).
  rewrite (non_empty_part query_char) by done.
  rewrite (non_empty_part fragment_char) by done.
  rewrite (fix_web_scheme_no_colon _ (forallb_impl _ _ _ path_ok_not_colon Hok)).
  unfold URI.fix_leading_slashes. rewrite H2.
  rewrite (two_slashes_startsWith _ H2).
  by rewrite (break_none _ _ (forallb_impl _ _ _ path_ok_not_colon Hok)).
Qed.

Lemma startsWith_before (c : ascii) (p : string) : forall u t : string,
  Str.forallb (is_not c) p = true ->
  Str.startsWith (u +:+ String c t) p = Str.startsWith u p.
Proof.
  induction p as [|a p IH]; intros u t Hp.
  - by destruct u.
  - cbn [Str.forallb] in Hp. apply andb_true_iff in Hp as [Ha Hp].
    unfold is_not in Ha. apply negb_true_iff in Ha.
    destruct u as [|b u]; sapp; cbn [Str.startsWith].
    + by rewrite Ha.
    + by rewrite IH.
Qed.

(** X16.  The query and the fragment of a relative request URL are lost:
    the URL resolves to what its path alone resolves to. *)
Theorem relative_query_dropped
    (this : client) (s : string) (qu fr : option string) :
  Str.forallb path_ok s = true -> URI.two_slashes s = false ->
  opt_ok (nonempty_all query_char) qu = true ->
  opt_ok (nonempty_all fragment_char) fr = true ->
  Str.forallb path_ok (apiPrefix this) = true ->
  resolve this (s +:+ query_part qu +:+ fragment_part fr) = resolve this s.
Proof.
  intros Hok H2 Hq Hf Hp.
  assert (forall p, Str.forallb path_ok p = true ->
                    Str.startsWith (s +:+ query_part qu +:+ fragment_part fr) p
                    = Str.startsWith s p) as Hsw.
  { intros p Hpp. destruct qu as [q|]; cbn [query_part]; sapp.
    - apply startsWith_before. by apply (forallb_impl _ _ _ path_ok_not_question).
    - destruct fr as [f|]; cbn [fragment_part]; sapp.
      + apply startsWith_before. by apply (forallb_impl _ _ _ path_ok_not_hash).
      + by rewrite sapp_nil_r. }
  unfold resolve, resolve_uri.
  rewrite (parse_relative_parts _ _ _ Hok H2 Hq Hf), (parse_relative _ Hok H2).
  rewrite !Hsw by (try done; sapp; cbn [Str.forallb]; by rewrite Hp).
  reflexivity.
Qed.

Lemma relative_query_dropped_witness :
  resolve modern_client ("voice/calls" +:+ query_part (Some "page=2") +:+ fragment_part None)
  = resolve modern_client "voice/calls".
Proof.
  exact (relative_query_dropped modern_client "voice/calls" (Some "page=2") None
           eq_refl eq_refl eq_refl eq_refl eq_refl).
Defined.
